(** * Shopify order manager: cache-backed client and bounded pagination

    A shallow embedding of [ShopifyMCPClient] (the MCP client wrapped by the
    [shopify-cli] command line) together with the read-through cache it is
    built on.  Asynchronous methods are embedded as state-passing
    computations that either return a value or throw; the remote MCP server
    is an arbitrary state transformer. *)

From Stdlib Require Import ZArith Lia Bool List Ascii String.
From Stdlib Require Import Permutation OrderedTypeEx.
From stdpp Require Import base tactics option list gmap strings pretty fin_maps.

Local Set Warnings "-register-all".
Local Open Scope string_scope.
Local Open Scope Z_scope.
Local Disable Notation "x ++ y" : string_scope.

(** ** JavaScript values

    Payloads travel through the client with the TypeScript type [any];
    they are whatever [JSON.parse] produced, plus [undefined] for absent
    optional arguments.  Numbers inside payloads are only ever tested for
    truthiness or written into cache keys, so they are kept as integers;
    [maxPages], the one number the client compares, has a type of its
    own further down. *)

Inductive any : Type :=
| VUndefined
| VNull
| VBool (b : bool)
| VNum (n : Z)
| VStr (s : string)
| VArr (xs : list any)
| VObj (fields : list (string * any)).

Inductive exn : Type :=
| Error (message : string)
| TypeError (message : string).

Module JS.

(** [if (v)] *)
Definition truthy (v : any) : bool :=
  match v with
  | VUndefined | VNull => false
  | VBool b => b
  | VNum n => negb (n =? 0)
  | VStr s => negb (String.eqb s "")
  | VArr _ | VObj _ => true
  end.

(** [v === undefined || v === null] *)
Definition nullish (v : any) : bool :=
  match v with
  | VUndefined | VNull => true
  | _ => false
  end.

(** The first binding of [k] in a field list. *)
Fixpoint lookup_field (k : string) (fs : list (string * any)) : option any :=
  match fs with
  | [] => None
  | (k', v) :: rest => if String.eqb k k' then Some v else lookup_field k rest
  end.

(** Reading a named, non-index property of a value that is neither
    [null] nor [undefined]: only plain objects carry such properties. *)
Definition get_prop (v : any) (k : string) : any :=
  match v with
  | VObj fs => default VUndefined (lookup_field k fs)
  | _ => VUndefined
  end.

(** [v.k]: throws on [null] and [undefined]. *)
Definition member (v : any) (k : string) : exn + any :=
  match v with
  | VNull =>
      inl (TypeError ("Cannot read properties of null (reading '" +:+ k +:+ "')"))
  | VUndefined =>
      inl (TypeError
             ("Cannot read properties of undefined (reading '" +:+ k +:+ "')"))
  | _ => inr (get_prop v k)
  end.

(** [v?.k] *)
Definition opt_member (v : any) (k : string) : any :=
  if nullish v then VUndefined else get_prop v k.

(** [v ?? d] *)
Definition coalesce (v d : any) : any :=
  if nullish v then d else v.

Fixpoint chars (s : string) : list any :=
  match s with
  | EmptyString => []
  | String c rest => VStr (String c EmptyString) :: chars rest
  end.

(** [...v] in an argument list: arrays and strings are iterable. *)
Definition spread (v : any) : exn + list any :=
  match v with
  | VArr xs => inr xs
  | VStr s => inr (chars s)
  | _ => inl (TypeError "value is not iterable")
  end.

(** [o[k] = v] on a plain object: overwrite in place or append. *)
Fixpoint set_field (k : string) (v : any) (fs : list (string * any))
  : list (string * any) :=
  match fs with
  | [] => [(k, v)]
  | (k', v') :: rest =>
      if String.eqb k k' then (k, v) :: rest
      else (k', v') :: set_field k v rest
  end.

(** [{...a, ...b}] *)
Definition assign (a b : list (string * any)) : list (string * any) :=
  fold_left (fun acc kv => set_field (fst kv) (snd kv) acc) b a.

End JS.

(** ** Computations

    An asynchronous method run to completion by a single caller: it
    transforms the state and either returns or throws.  Effects performed
    before a throw persist. *)

Inductive result (A : Type) : Type :=
| Ok (a : A)
| Throw (e : exn).
Arguments Ok {A} a.
Arguments Throw {A} e.

Definition M (T A : Type) : Type := T -> result A * T.

Definition ret {T A} (a : A) : M T A := fun s => (Ok a, s).

Definition throw {T A} (e : exn) : M T A := fun s => (Throw e, s).

Definition bind {T A B} (m : M T A) (k : A -> M T B) : M T B :=
  fun s =>
    match m s with
    | (Ok a, s') => k a s'
    | (Throw e, s') => (Throw e, s')
    end.

Definition lift_exn {T A} (r : exn + A) : M T A :=
  match r with
  | inl e => throw e
  | inr a => ret a
  end.

Declare Scope comp_scope.
Delimit Scope comp_scope with comp.
Notation "'let*' x ':=' m 'in' k" := (bind m (fun x => k))
  (at level 10, x name, m at level 100, k at level 200) : comp_scope.
Local Open Scope comp_scope.

(** ** Numbers

    [maxPages] is a JavaScript number: it may be fractional, infinite or
    [NaN].  A finite number is given as a ratio of integers, which covers
    every finite double; page counts are integers. *)

Inductive number : Type :=
| Ratio (num : Z) (den : positive)
| Infinity
| NegInfinity
| NaN.

(** An integer as a number. *)
Definition Int (z : Z) : number := Ratio z 1.

(** [count < m] for an integer [count]: false when [m] is [NaN]. *)
Definition below (count : Z) (m : number) : bool :=
  match m with
  | Ratio n d => count * Zpos d <? n
  | Infinity => true
  | NegInfinity | NaN => false
  end.

(** [count <= m] for an integer [count]: false when [m] is [NaN]. *)
Definition at_most (count : Z) (m : number) : bool :=
  match m with
  | Ratio n d => count * Zpos d <=? n
  | Infinity => true
  | NegInfinity | NaN => false
  end.

(** The page count at which [pageCount < m] fails for good: the ceiling
    of a finite [m], nothing for [Infinity], and zero for the numbers no
    count is below. *)
Definition page_limit (m : number) : option Z :=
  match m with
  | Ratio n d => Some ((n + Zpos d - 1) / Zpos d)
  | Infinity => None
  | NegInfinity | NaN => Some 0
  end.

(** The loop counter [pageCount] is itself a double; counting by one is
    exact up to [2 ^ 53]. *)
Definition exact_count_limit : Z := 2 ^ 53.

(** ** Options records of the order operations *)

Record OrdersOptions : Type := {
  o_status : any;
  o_limit : any;
  o_sortKey : any;
  o_reverse : any;
  o_after : any;
  o_query : any
}.

Record AllOrdersOptions : Type := {
  a_status : any;
  a_sortKey : any;
  a_reverse : any;
  a_query : any;
  a_maxPages : option number
}.

Record AllOrders : Type := {
  orders : list any;
  totalFetched : Z;
  hasMore : any
}.

(** ** getAllOrders: the pagination loop

    The loop is written over an arbitrary page fetcher standing for
    [this.getOrders]; the client instantiates it further down. *)

Record LoopState : Type := {
  allOrders : list any;
  cursor : any;
  hasNextPage : any;
  pageCount : Z
}.

Definition loop_init : LoopState :=
  {| allOrders := []; cursor := VUndefined;
     hasNextPage := VBool true; pageCount := 0 |}.

(** [options?.maxPages ?? 10] *)
Definition maxPages_of (options : option AllOrdersOptions) : number :=
  default (Int 10) (options ≫= a_maxPages).

(** [options?.f] *)
Definition opt_of (f : AllOrdersOptions -> any)
  (options : option AllOrdersOptions) : any :=
  from_option f VUndefined options.

(** The argument object of the [getOrders] call in the loop body. *)
Definition page_request (options : option AllOrdersOptions) (cursor : any)
  : OrdersOptions :=
  {| o_status := opt_of a_status options;
     o_limit := VNum 250;
     o_sortKey := JS.coalesce (opt_of a_sortKey options) (VStr "CREATED_AT");
     o_reverse := JS.coalesce (opt_of a_reverse options) (VBool true);
     o_after := cursor;
     o_query := opt_of a_query options |}.

(** The part of the loop body after the [await]: dispatch on the shape of
    the response and bump [pageCount]. *)
Definition absorb (res : any) (st : LoopState) : exn + LoopState :=
  match res with
  | VArr items =>
      inr {| allOrders := allOrders st ++ items;
             cursor := cursor st;
             hasNextPage := VBool false;
             pageCount := pageCount st + 1 |}
  | _ =>
      match JS.member res "orders" with
      | inl e => inl e
      | inr ords =>
          if JS.truthy ords then
            match JS.spread ords with
            | inl e => inl e
            | inr items =>
                let pageInfo := JS.get_prop res "pageInfo" in
                inr {| allOrders := allOrders st ++ items;
                       cursor := JS.opt_member pageInfo "endCursor";
                       hasNextPage :=
                         JS.coalesce (JS.opt_member pageInfo "hasNextPage")
                                     (VBool false);
                       pageCount := pageCount st + 1 |}
            end
          else
            inr {| allOrders := allOrders st ++ [res];
                   cursor := cursor st;
                   hasNextPage := VBool false;
                   pageCount := pageCount st + 1 |}
      end
  end.

(** [hasNextPage && pageCount < maxPages] *)
Definition continues (maxPages : number) (st : LoopState) : bool :=
  JS.truthy (hasNextPage st) && below (pageCount st) maxPages.

Definition finish (st : LoopState) : AllOrders :=
  {| orders := allOrders st;
     totalFetched := Z.of_nat (length (allOrders st));
     hasMore := hasNextPage st |}.

Section Pagination.
Context {T : Type}.
Variable getOrders : OrdersOptions -> M T any.
Variable options : option AllOrdersOptions.

(** The [while] loop, unrolled at most [fuel] times; [None] reports that
    the loop was still running when the fuel ran out. *)
Fixpoint getAllOrders_loop (fuel : nat) (st : LoopState)
  : M T (option LoopState) :=
  if continues (maxPages_of options) st then
    match fuel with
    | O => ret None
    | S fuel' =>
        let* res := getOrders (page_request options (cursor st)) in
        let* st' := lift_exn (absorb res st) in
        getAllOrders_loop fuel' st'
    end
  else ret (Some st).

Definition getAllOrders_with (fuel : nat) : M T (option AllOrders) :=
  let* st := getAllOrders_loop fuel loop_init in
  ret (option_map finish st).

(** The states the loop passes through at the top of an iteration, when
    started in [s0]. *)
Inductive reaches (s0 : T) : LoopState -> T -> Prop :=
| reaches_init : reaches s0 loop_init s0
| reaches_next st s res s' st' :
    reaches s0 st s ->
    continues (maxPages_of options) st = true ->
    getOrders (page_request options (cursor st)) s = (Ok res, s') ->
    absorb res st = inr st' ->
    reaches s0 st' s'.

End Pagination.

(** A fetcher instrumented with a call counter. *)
Definition counted {T} (f : OrdersOptions -> M T any)
  : OrdersOptions -> M (T * nat) any :=
  fun o sn =>
    let (r, s') := f o sn.1 in (r, (s', S sn.2)).

(** ** The plugin cache

    [PluginCache], [TTL] and [createCacheKey] are imported from the
    [@local/plugin-cache] package, whose sources are not part of the
    tree; they are rebuilt here from the design document. *)

(** Modelled from the spec: the entry type of the missing [PluginCache]:
    the payload, the absolute time after which it is stale, and the time
    of insertion. *)
Record CacheEntry : Type := {
  value : any;
  expiresAt : Z;
  storedAt : Z
}.

(** Modelled from the spec: the counters of the missing [PluginCache]. *)
Record CacheStats : Type := {
  hits : nat;
  misses : nat;
  sets : nat;
  invalidations : nat
}.

(** Modelled from the spec: the store of the missing [PluginCache]: a
    mapping from keys to entries, the global enable flag, and the
    counters. *)
Record PluginCache : Type := {
  entries : gmap string CacheEntry;
  enabled : bool;
  stats : CacheStats
}.

Module TTL.
(** Modelled from the spec: the [TTL] table of [@local/plugin-cache] is
    missing; the design document's scenario caches orders with
    [ttl: 300] for the five-minute window, so time is counted in
    seconds. *)
Definition FIVE_MINUTES : Z := 300.

(** Modelled from the spec: see [FIVE_MINUTES]. *)
Definition FIFTEEN_MINUTES : Z := 900.

(** Modelled from the spec: see [FIVE_MINUTES]. *)
Definition HOUR : Z := 3600.
End TTL.

Module Cache.

(** Modelled from the spec: the [PluginCache] constructor is missing; a
    store is created empty, enabled, with zeroed counters. *)
Definition create : PluginCache :=
  {| entries := ∅; enabled := true;
     stats := {| hits := 0; misses := 0; sets := 0; invalidations := 0 |} |}.

(** Modelled from the spec: record updates and counter bumps used by the
    operations of the missing [PluginCache] below. *)
Definition with_entries (m : gmap string CacheEntry) (c : PluginCache)
  : PluginCache :=
  {| entries := m; enabled := enabled c; stats := stats c |}.

(** Modelled from the spec: see [with_entries]. *)
Definition with_stats (st : CacheStats) (c : PluginCache) : PluginCache :=
  {| entries := entries c; enabled := enabled c; stats := st |}.

(** Modelled from the spec: a hit increments [hits]. *)
Definition count_hit (c : PluginCache) : PluginCache :=
  with_stats {| hits := S (hits (stats c)); misses := misses (stats c);
                sets := sets (stats c);
                invalidations := invalidations (stats c) |} c.

(** Modelled from the spec: a stored miss increments [misses] and
    [sets]. *)
Definition count_miss_set (c : PluginCache) : PluginCache :=
  with_stats {| hits := hits (stats c); misses := S (misses (stats c));
                sets := S (sets (stats c));
                invalidations := invalidations (stats c) |} c.

(** Modelled from the spec: removals add to [invalidations]. *)
Definition count_invalidations (n : nat) (c : PluginCache) : PluginCache :=
  with_stats {| hits := hits (stats c); misses := misses (stats c);
                sets := sets (stats c);
                invalidations := (invalidations (stats c) + n)%nat |} c.

(** Modelled from the spec: an entry is authoritative while its
    [expiresAt] lies in the future; a TTL of zero is stale at once. *)
Definition fresh (now : Z) (e : CacheEntry) : bool := now <? expiresAt e.

(** Modelled from the spec: the write half of [getOrFetch], missing with
    the rest of [PluginCache]: store the value with
    [expiresAt = now + ttl] and count a miss and a set. *)
Definition store (key : string) (v : any) (now ttl : Z) (c : PluginCache)
  : PluginCache :=
  count_miss_set
    (with_entries
       (<[key := {| value := v; expiresAt := now + ttl; storedAt := now |}]>
          (entries c)) c).

(** Modelled from the spec: [invalidate(key)] is missing; it removes a
    single entry and reports whether it existed. *)
Definition invalidate (key : string) (c : PluginCache) : bool * PluginCache :=
  match entries c !! key with
  | Some _ =>
      (true, count_invalidations 1 (with_entries (delete key (entries c)) c))
  | None => (false, c)
  end.

(** Modelled from the spec: the entries [invalidatePattern] keeps are
    those whose key does not begin with the pattern's text. *)
Definition survives (pre : string) (kv : string * CacheEntry) : Prop :=
  String.prefix pre kv.1 = false.

#[global] Instance survives_dec pre kv : Decision (survives pre kv).
Proof. unfold survives. apply _. Defined.

(** Modelled from the spec: [invalidatePattern(pattern)] is missing; it
    removes every entry whose key begins with the pattern's text and
    returns how many were removed.  The anchored literal expressions the
    client passes, such as [/^order/], are given by their text. *)
Definition invalidatePattern (pre : string) (c : PluginCache)
  : nat * PluginCache :=
  let kept := filter (survives pre) (entries c) in
  let n := (size (entries c) - size kept)%nat in
  (n, count_invalidations n (with_entries kept c)).

(** Modelled from the spec: [clear()] is missing; it removes everything,
    returns the count and resets no other state. *)
Definition clear (c : PluginCache) : nat * PluginCache :=
  (size (entries c), with_entries ∅ c).

(** Modelled from the spec: [disable()] and [enable()] are missing; they
    only toggle the global bypass. *)
Definition disable (c : PluginCache) : PluginCache :=
  {| entries := entries c; enabled := false; stats := stats c |}.

(** Modelled from the spec: see [disable]. *)
Definition enable (c : PluginCache) : PluginCache :=
  {| entries := entries c; enabled := true; stats := stats c |}.

(** Modelled from the spec: [getStats()] is missing; a snapshot of the
    counters with the current size. *)
Definition getStats (c : PluginCache) : CacheStats * nat :=
  (stats c, size (entries c)).

End Cache.

(** *** Cache keys *)

(** Modelled from the spec: the value serializer used by [createCacheKey]
    is missing; any stable textual form will do, here a JSON-like one. *)
Fixpoint serialize (v : any) : string :=
  match v with
  | VUndefined => "undefined"
  | VNull => "null"
  | VBool true => "true"
  | VBool false => "false"
  | VNum n => pretty n
  | VStr s => s
  | VArr xs =>
      "[" +:+
      (fix items (l : list any) : string :=
         match l with
         | [] => ""
         | x :: rest => serialize x +:+ "," +:+ items rest
         end) xs +:+ "]"
  | VObj fs =>
      "{" +:+
      (fix fields (l : list (string * any)) : string :=
         match l with
         | [] => ""
         | (k, x) :: rest => k +:+ ":" +:+ serialize x +:+ "," +:+ fields rest
         end) fs +:+ "}"
  end.

(** Modelled from the spec: the parameter filter of the missing
    [createCacheKey]: a parameter is present unless its value is
    [undefined]. *)
Definition present (kv : string * any) : bool :=
  match kv.2 with
  | VUndefined => false
  | _ => true
  end.

(** Modelled from the spec: the stable order of the missing
    [createCacheKey]: insertion sort on the parameter names. *)
Fixpoint insert_param (kv : string * any) (l : list (string * any))
  : list (string * any) :=
  match l with
  | [] => [kv]
  | kv' :: rest =>
      if String.leb kv.1 kv'.1 then kv :: l
      else kv' :: insert_param kv rest
  end.

(** Modelled from the spec: see [insert_param]. *)
Definition sort_params (l : list (string * any)) : list (string * any) :=
  foldr insert_param [] l.

(** Modelled from the spec: one [name=value] segment of a key of the
    missing [createCacheKey]. *)
Definition render_param (kv : string * any) : string :=
  kv.1 +:+ "=" +:+ serialize kv.2.

(** Modelled from the spec: the segments of a key are joined with a
    separator. *)
Fixpoint join (sep : string) (l : list string) : string :=
  match l with
  | [] => ""
  | [x] => x
  | x :: rest => x +:+ sep +:+ join sep rest
  end.

(** Modelled from the spec: [createCacheKey(namespace, params)] is
    missing; it drops the parameters whose value is absent, lists the
    others sorted by name, and puts the namespace in front, as in
    ["orders:status=open"]. *)
Definition createCacheKey (namespace : string) (params : list (string * any))
  : string :=
  namespace +:+ ":" +:+
  join "&" (map render_param (sort_params (List.filter present params))).

(** ** The client *)

(** The reply of the MCP server to one tool call. *)
Record ContentItem : Type := {
  c_type : string;
  c_text : option string
}.

Record ToolResult : Type := {
  isError : bool;
  content : list ContentItem
}.

(** What the client does to the outside, in order: ghost bookkeeping used
    to state how often and in which order effects happen. *)
Inductive event : Type :=
| ToolCalled (name : string) (args : list (string * any))
| PatternInvalidated (pre : string).

(** The module-level [cache], the client's [cacheDisabled] flag, and the
    remote side (server, connection, wall clock) as [world]. *)
Record State (W : Type) : Type := {
  world : W;
  cache : PluginCache;
  cacheDisabled : bool;
  history : list event
}.
Arguments world {W} _.
Arguments cache {W} _.
Arguments cacheDisabled {W} _.
Arguments history {W} _.

Definition with_world {W} (w : W) (s : State W) : State W :=
  {| world := w; cache := cache s; cacheDisabled := cacheDisabled s;
     history := history s |}.

Definition with_cache {W} (c : PluginCache) (s : State W) : State W :=
  {| world := world s; cache := c; cacheDisabled := cacheDisabled s;
     history := history s |}.

Definition record_event {W} (ev : event) (s : State W) : State W :=
  {| world := world s; cache := cache s; cacheDisabled := cacheDisabled s;
     history := history s ++ [ev] |}.

Definition find_text (c : list ContentItem) : option ContentItem :=
  List.find (fun i => String.eqb (c_type i) "text") c.

Definition content_value (c : list ContentItem) : any :=
  VArr (map (fun i =>
               VObj (("type", VStr (c_type i)) ::
                     match c_text i with
                     | Some t => [("text", VStr t)]
                     | None => []
                     end)) c).

Section Client.
Context {W : Type}.

(** [Date.now()] as read off the world. *)
Variable clock : W -> Z.

(** [connect()] followed by [this.client.callTool]: the server answers
    or the call rejects. *)
Variable transport :
  string -> list (string * any) -> W -> (exn + ToolResult) * W.

(** [JSON.parse], [None] when it throws. *)
Variable JSON_parse : string -> option any.

Local Abbreviation St := (State W).

Definition callTool (name : string) (args : list (string * any))
  : M St any :=
  fun s =>
    let s := record_event (ToolCalled name args) s in
    match transport name args (world s) with
    | (inl e, w) => (Throw e, with_world w s)
    | (inr r, w) =>
        let s := with_world w s in
        if isError r then
          let message :=
            match find_text (content r) ≫= c_text with
            | Some t => if String.eqb t "" then "Tool call failed" else t
            | None => "Tool call failed"
            end in
          (Throw (Error message), s)
        else
          match find_text (content r) ≫= c_text with
          | Some t =>
              if String.eqb t "" then (Ok (content_value (content r)), s)
              else match JSON_parse t with
                   | Some v => (Ok v, s)
                   | None => (Ok (VStr t), s)
                   end
          | None => (Ok (content_value (content r)), s)
          end
    end.

(** *** Cache operations on the client state *)

(** Modelled from the spec: [getOrFetch(key, fetchFn, {ttl,
    bypassCache})] of the missing [PluginCache].  A bypassed or disabled
    store is neither read nor written; a fresh entry is returned
    without running [fetchFn]; otherwise the stale entry, if any, is
    evicted, [fetchFn] runs, and only a successful result is stored. *)
Definition getOrFetch (key : string) (fetchFn : M St any)
  (ttl : Z) (bypassCache : bool) : M St any :=
  fun s =>
    if bypassCache || negb (enabled (cache s)) then fetchFn s
    else
      let miss (s0 : St) :=
        match fetchFn s0 with
        | (Ok v, s1) =>
            (Ok v,
             with_cache (Cache.store key v (clock (world s1)) ttl (cache s1)) s1)
        | (Throw e, s1) => (Throw e, s1)
        end in
      match entries (cache s) !! key with
      | Some e =>
          if Cache.fresh (clock (world s)) e
          then (Ok (value e), with_cache (Cache.count_hit (cache s)) s)
          else miss (with_cache
                       (Cache.with_entries (delete key (entries (cache s)))
                                           (cache s)) s)
      | None => miss s
      end.

Definition invalidatePattern (pre : string) : M St nat :=
  fun s =>
    let (n, c) := Cache.invalidatePattern pre (cache s) in
    (Ok n, record_event (PatternInvalidated pre) (with_cache c s)).

(** *** Cache control *)

Definition disableCache : M St unit :=
  fun s =>
    (Ok tt,
     {| world := world s; cache := Cache.disable (cache s);
        cacheDisabled := true; history := history s |}).

Definition enableCache : M St unit :=
  fun s =>
    (Ok tt,
     {| world := world s; cache := Cache.enable (cache s);
        cacheDisabled := false; history := history s |}).

Definition getCacheStats : M St (CacheStats * nat) :=
  fun s => (Ok (Cache.getStats (cache s)), s).

Definition clearCache : M St nat :=
  fun s =>
    let (n, c) := Cache.clear (cache s) in (Ok n, with_cache c s).

Definition invalidateCacheKey (key : string) : M St bool :=
  fun s =>
    let (b, c) := Cache.invalidate key (cache s) in (Ok b, with_cache c s).

(** *** Order operations *)

(** [if (v) args[k] = v] *)
Definition set_if_truthy (k : string) (v : any) (args : list (string * any))
  : list (string * any) :=
  if JS.truthy v then JS.set_field k v args else args.

(** [options?.f] *)
Definition orders_opt (f : OrdersOptions -> any)
  (options : option OrdersOptions) : any :=
  from_option f VUndefined options.

Definition getOrders_args (options : option OrdersOptions)
  : list (string * any) :=
  let args := set_if_truthy "status" (orders_opt o_status options) [] in
  let args := set_if_truthy "first" (orders_opt o_limit options) args in
  let args := set_if_truthy "sortKey" (orders_opt o_sortKey options) args in
  let args :=
    match orders_opt o_reverse options with
    | VUndefined => args
    | v => JS.set_field "reverse" v args
    end in
  let args := set_if_truthy "after" (orders_opt o_after options) args in
  set_if_truthy "query" (orders_opt o_query options) args.

Definition getOrders_key (options : option OrdersOptions) : string :=
  createCacheKey "orders"
    [("status", orders_opt o_status options);
     ("limit", orders_opt o_limit options);
     ("sortKey", orders_opt o_sortKey options);
     ("reverse", orders_opt o_reverse options);
     ("after", orders_opt o_after options);
     ("query", orders_opt o_query options)].

Definition getOrders (options : option OrdersOptions) : M St any :=
  fun s =>
    getOrFetch (getOrders_key options)
      (callTool "get-orders" (getOrders_args options))
      TTL.FIVE_MINUTES (cacheDisabled s) s.

Definition getAllOrders (fuel : nat) (options : option AllOrdersOptions)
  : M St (option AllOrders) :=
  getAllOrders_with (fun o => getOrders (Some o)) options fuel.

Definition getOrderById (orderId : string) : M St any :=
  fun s =>
    getOrFetch (createCacheKey "order" [("id", VStr orderId)])
      (callTool "get-order-by-id" [("orderId", VStr orderId)])
      TTL.FIVE_MINUTES (cacheDisabled s) s.

(** *** Mutations *)

Definition updateOrder (orderId : string) (updates : list (string * any))
  : M St any :=
  let* res := callTool "update-order"
                (JS.assign [("id", VStr orderId)] updates) in
  let* _ := invalidatePattern "order" in
  ret res.

Definition updateFulfillmentTracking (fulfillmentId trackingNumber : string)
  (options : option (list (string * any))) : M St any :=
  let* res := callTool "update-fulfillment-tracking"
                (JS.assign [("fulfillmentId", VStr fulfillmentId);
                            ("trackingNumber", VStr trackingNumber)]
                           (default [] options)) in
  let* _ := invalidatePattern "order" in
  ret res.

Definition createProduct (product : list (string * any)) : M St any :=
  let* res := callTool "createProduct" product in
  let* _ := invalidatePattern "products" in
  ret res.

Definition updateCustomer (customerId : string)
  (updates : list (string * any)) : M St any :=
  let* res := callTool "update-customer"
                (JS.assign [("id", VStr customerId)] updates) in
  let* _ := invalidatePattern "customer" in
  ret res.

End Client.

(** ** Sample servers and inputs

    Small page fetchers and option records on which the statements below
    are exercised.  The state of a sample fetcher is the number of pages it
    has served. *)

(** A well-formed page of the [get-orders] tool. *)
Definition page (items : list any) (next : bool) (endCursor : any) : any :=
  VObj [("orders", VArr items);
        ("pageInfo", VObj [("hasNextPage", VBool next);
                           ("endCursor", endCursor)])].

Definition with_maxPages_number (m : number) : option AllOrdersOptions :=
  Some {| a_status := VUndefined; a_sortKey := VUndefined;
          a_reverse := VUndefined; a_query := VUndefined;
          a_maxPages := Some m |}.

Definition with_maxPages (m : Z) : option AllOrdersOptions :=
  with_maxPages_number (Int m).

(** Every page holds one order and announces a further page. *)
Definition endless : OrdersOptions -> M nat any :=
  fun _ n => (Ok (page [VNum (Z.of_nat n)] true (VStr "next")), S n).

(** The server answers the JSON text [null]. *)
Definition null_page : OrdersOptions -> M nat any :=
  fun _ n => (Ok VNull, S n).

(** The second request is rejected. *)
Definition failing_second : OrdersOptions -> M nat any :=
  fun _ n =>
    match n with
    | O => (Ok (page [VStr "#1001"] true (VStr "c1")), 1%nat)
    | _ => (Throw (Error "Throttled"), S n)
    end.

(** Two pages, the second one final. *)
Definition two_pages : OrdersOptions -> M nat any :=
  fun _ n =>
    match n with
    | O => (Ok (page [VStr "#1001"; VStr "#1002"] true (VStr "c1")), 1%nat)
    | _ => (Ok (page [VStr "#1003"] false VNull), S n)
    end.

(** A sample deployment: the world is the wall clock, every tool call
    takes one second, and the server replies with a fixed text. *)
Definition reply_text (t : string) : ToolResult :=
  {| isError := false; content := [{| c_type := "text"; c_text := Some t |}] |}.

Definition replying (t : string)
  : string -> list (string * any) -> Z -> (exn + ToolResult) * Z :=
  fun _ _ now => (inr (reply_text t), now + 1).

Definition rejecting (message : string)
  : string -> list (string * any) -> Z -> (exn + ToolResult) * Z :=
  fun _ _ now =>
    (inr {| isError := true;
            content := [{| c_type := "text"; c_text := Some message |}] |},
     now + 1).

(** The server flags an error and answers with the given content items. *)
Definition rejecting_with (items : list ContentItem)
  : string -> list (string * any) -> Z -> (exn + ToolResult) * Z :=
  fun _ _ now => (inr {| isError := true; content := items |}, now + 1).

Definition sample_parse (t : string) : option any :=
  if String.eqb t "null" then Some VNull
  else if String.eqb t "[]" then Some (VArr [])
  else None.

Definition client_at (now : Z) (c : PluginCache) (disabled : bool) : State Z :=
  {| world := now; cache := c; cacheDisabled := disabled; history := [] |}.

Definition entry (v : any) (stored ttl : Z) : CacheEntry :=
  {| value := v; expiresAt := stored + ttl; storedAt := stored |}.

(** A store holding one order, one product and one customer listing. *)
Definition warm_cache : PluginCache :=
  Cache.with_entries
    (<["order:id=42" := entry (VStr "order 42") 0 300]>
       (<["product:id=7" := entry (VStr "product 7") 0 3600]>
          (<["customers:search=ann" := entry (VArr []) 0 900]> ∅)))
    Cache.create.

(** No fresh entry is held under [key]: it is absent or has expired. *)
Definition uncached {W} (clock : W -> Z) (key : string) (s : State W) : Prop :=
  match entries (cache s) !! key with
  | Some e => Cache.fresh (clock (world s)) e = false
  | None => True
  end.

(** The contract of a mutation that calls [tool] with [args] and then
    invalidates the keys beginning with [pre].  If the call resolves, the
    keys are invalidated in the state the call left behind, and the
    invalidation is the last thing that happened; if the call throws, the
    mutation throws the same error and the cache is the one it started
    with. *)
Definition invalidates_only_on_success {W}
  (op call : M (State W) any)
  (tool : string) (args : list (string * any)) (pre : string) : Prop :=
  forall s,
    match call s with
    | (Ok res, s1) =>
        op s = (Ok res,
                record_event (PatternInvalidated pre)
                  (with_cache (Cache.invalidatePattern pre (cache s)).2 s1)) /\
        history s1 = history s ++ [ToolCalled tool args]
    | (Throw e, s1) =>
        op s = (Throw e, s1) /\
        cache s1 = cache s /\
        history s1 = history s ++ [ToolCalled tool args]
    end.

(** The page count has just reached the bound: the count before was
    below [m], this one is not.  For an integer [m] this is [count = m]. *)
Definition bound_reached (count : Z) (m : number) : Prop :=
  below (count - 1) m = true /\ below count m = false.

(** The reading of [hasMore] under test: it is [true] exactly when some
    page was fetched last, that page announced a further page, and the
    page count had reached [maxPages]. *)
Definition hasMore_iff_bound_hit {T} (getOrders : OrdersOptions -> M T any)
  (options : option AllOrdersOptions) (s0 : T) : Prop :=
  forall fuel r s',
    getAllOrders_with getOrders options fuel s0 = (Ok (Some r), s') ->
    (hasMore r = VBool true <->
     exists st s res st',
       reaches getOrders options s0 st s /\
       continues (maxPages_of options) st = true /\
       getOrders (page_request options (cursor st)) s = (Ok res, s') /\
       absorb res st = inr st' /\
       hasNextPage st' = VBool true /\
       bound_reached (pageCount st') (maxPages_of options)).

(** The reading of the page bound under test: the page count stays at or
    under [maxPages] in every state the loop passes through. *)
Definition pageCount_within_maxPages {T}
  (getOrders : OrdersOptions -> M T any)
  (options : option AllOrdersOptions) (s0 : T) : Prop :=
  forall st s,
    reaches getOrders options s0 st s ->
    at_most (pageCount st) (maxPages_of options) = true.

(** ** Product and customer reads *)

Record ProductsOptions : Type := {
  p_searchTitle : any;
  p_limit : any
}.

Record CustomersOptions : Type := {
  c_searchQuery : any;
  c_limit : any
}.

Section Reads.
Context {W : Type}.
Variable clock : W -> Z.
Variable transport :
  string -> list (string * any) -> W -> (exn + ToolResult) * W.
Variable JSON_parse : string -> option any.

Local Abbreviation St := (State W).

Definition getProducts_args (options : option ProductsOptions)
  : list (string * any) :=
  let args :=
    set_if_truthy "searchTitle" (from_option p_searchTitle VUndefined options)
      [] in
  set_if_truthy "limit" (from_option p_limit VUndefined options) args.

Definition getProducts (options : option ProductsOptions) : M St any :=
  fun s =>
    getOrFetch clock
      (createCacheKey "products"
         [("search", from_option p_searchTitle VUndefined options);
          ("limit", from_option p_limit VUndefined options)])
      (callTool transport JSON_parse "get-products" (getProducts_args options))
      TTL.HOUR (cacheDisabled s) s.

Definition getProductById (productId : string) : M St any :=
  fun s =>
    getOrFetch clock (createCacheKey "product" [("id", VStr productId)])
      (callTool transport JSON_parse "get-product-by-id"
         [("productId", VStr productId)])
      TTL.HOUR (cacheDisabled s) s.

Definition getCustomers_args (options : option CustomersOptions)
  : list (string * any) :=
  let args :=
    set_if_truthy "searchQuery" (from_option c_searchQuery VUndefined options)
      [] in
  set_if_truthy "limit" (from_option c_limit VUndefined options) args.

Definition getCustomers (options : option CustomersOptions) : M St any :=
  fun s =>
    getOrFetch clock
      (createCacheKey "customers"
         [("search", from_option c_searchQuery VUndefined options);
          ("limit", from_option c_limit VUndefined options)])
      (callTool transport JSON_parse "get-customers"
         (getCustomers_args options))
      TTL.FIFTEEN_MINUTES (cacheDisabled s) s.

Definition getCustomerOrders_args (customerId : string) (limit : any)
  : list (string * any) :=
  set_if_truthy "limit" limit [("customerId", VStr customerId)].

Definition getCustomerOrders (customerId : string) (limit : any)
  : M St any :=
  fun s =>
    getOrFetch clock
      (createCacheKey "customer_orders"
         [("id", VStr customerId); ("limit", limit)])
      (callTool transport JSON_parse "get-customer-orders"
         (getCustomerOrders_args customerId limit))
      TTL.FIVE_MINUTES (cacheDisabled s) s.

End Reads.

(** ** The command line ([cli.ts])

    Strings hold the characters of a command-line argument; the
    characters considered are those with a code below 256. *)

Module Cli.

Definition is_digit (c : ascii) : bool :=
  ((48 <=? N_of_ascii c) && (N_of_ascii c <=? 57))%N.

(** The characters [String.prototype.trim] removes, among those with a
    code below 256: TAB, LF, VT, FF, CR, SPACE and NBSP. *)
Definition is_space (c : ascii) : bool :=
  let n := N_of_ascii c in
  (((9 <=? n) && (n <=? 13)) || (n =? 32) || (n =? 160))%N.

(** The longest run of digits at the front: a greedy [\d+]. *)
Fixpoint take_digits (s : string) : string :=
  match s with
  | EmptyString => EmptyString
  | String c rest =>
      if is_digit c then String c (take_digits rest) else EmptyString
  end.

Fixpoint strip_prefix (p s : string) : option string :=
  match p with
  | EmptyString => Some s
  | String a p' =>
      match s with
      | EmptyString => None
      | String b s' => if Ascii.eqb a b then strip_prefix p' s' else None
      end
  end.

Definition customer_gid : string := "gid://shopify/Customer/".

(** [id.match(/gid:\/\/shopify\/Customer\/(\d+)/)], giving the captured
    group of the leftmost match. *)
Fixpoint match_customer_gid (s : string) : option string :=
  match s with
  | EmptyString => None
  | String _ rest =>
      match strip_prefix customer_gid s with
      | Some tail =>
          match take_digits tail with
          | EmptyString => match_customer_gid rest
          | digits => Some digits
          end
      | None => match_customer_gid rest
      end
  end.

(** [gidMatch ? gidMatch[1] : id] *)
Definition customer_id_of (id : string) : string :=
  default id (match_customer_gid id).

(** [s.split(",")] *)
Fixpoint split_comma (s : string) : list string :=
  match s with
  | EmptyString => [EmptyString]
  | String c rest =>
      if Ascii.eqb c "," then EmptyString :: split_comma rest
      else match split_comma rest with
           | [] => [String c EmptyString]
           | piece :: pieces => String c piece :: pieces
           end
  end.

Fixpoint trim_start (s : string) : string :=
  match s with
  | EmptyString => EmptyString
  | String c rest => if is_space c then trim_start rest else s
  end.

Fixpoint trim_end (s : string) : string :=
  match s with
  | EmptyString => EmptyString
  | String c rest =>
      match trim_end rest with
      | EmptyString => if is_space c then EmptyString else String c EmptyString
      | rest' => String c rest'
      end
  end.

(** [s.trim()] *)
Definition trim (s : string) : string := trim_end (trim_start s).

(** [tags?.split(",").map((t) => t.trim())] *)
Definition split_tags (tags : option string) : any :=
  match tags with
  | Some t => VArr (map VStr (map trim (split_comma t)))
  | None => VUndefined
  end.




Section Handlers.
Context {W : Type}.
Variable clock : W -> Z.
Variable transport :
  string -> list (string * any) -> W -> (exn + ToolResult) * W.
Variable JSON_parse : string -> option any.

(** The [get-customer-orders] command. *)
Definition get_customer_orders (id : string) (limit : any)
  : M (State W) any :=
  getCustomerOrders clock transport JSON_parse (customer_id_of id) limit.





End Handlers.

(** [xs.join(sep)] on strings. *)
Fixpoint join_with (sep : string) (l : list string) : string :=
  match l with
  | [] => EmptyString
  | [x] => x
  | x :: rest => x +:+ sep +:+ join_with sep rest
  end.

Fixpoint count_commas (s : string) : nat :=
  match s with
  | EmptyString => O
  | String c rest =>
      if Ascii.eqb c "," then S (count_commas rest) else count_commas rest
  end.

Fixpoint all_digits (s : string) : bool :=
  match s with
  | EmptyString => true
  | String c rest => is_digit c && all_digits rest
  end.

Fixpoint all_spaces (s : string) : bool :=
  match s with
  | EmptyString => true
  | String c rest => is_space c && all_spaces rest
  end.

Definition starts_with_space (s : string) : bool :=
  match s with
  | EmptyString => false
  | String c _ => is_space c
  end.

Fixpoint ends_with_space (s : string) : bool :=
  match s with
  | EmptyString => false
  | String c EmptyString => is_space c
  | String _ rest => ends_with_space rest
  end.

End Cli.


(** The first page announces a further page; every later page carries the
    text ["yes"] where the flag [hasNextPage] is expected. *)
Definition text_flag_second : OrdersOptions -> M nat any :=
  fun _ n =>
    match n with
    | O => (Ok (page [VStr "#1001"] true (VStr "c1")), 1%nat)
    | _ => (Ok (VObj [("orders", VArr [VStr "#1002"]);
                      ("pageInfo", VObj [("hasNextPage", VStr "yes")])]),
            S n)
    end.

(** * Properties *)

(** ** Pagination *)

Lemma absorb_pageCount res st st' :
  absorb res st = inr st' -> pageCount st' = pageCount st + 1.
Proof.
  unfold absorb. intros H.
  destruct res; simpl in H;
    repeat match type of H with
           | inl _ = inr _ => discriminate H
           | inr _ = inr _ => injection H as <-; reflexivity
           | context [if ?b then _ else _] => destruct b
           | context [match ?x with _ => _ end] => destruct x
           end.
Qed.

(** *** Comparing page counts with [maxPages] *)

Lemma below_mono c c' m : c' <= c -> below c m = true -> below c' m = true.
Proof.
  destruct m as [n d| | |]; simpl; auto.
  intros Hle H. apply Z.ltb_lt in H. apply Z.ltb_lt. nia.
Qed.

Lemma below_Int c z : below c (Int z) = (c <? z).
Proof. simpl. rewrite Z.mul_1_r. reflexivity. Qed.

Lemma ceiling_spec n (d : positive) c :
  (c * Zpos d <? n) = (c <? (n + Zpos d - 1) / Zpos d).
Proof.
  pose proof (Z.div_mod (n + Zpos d - 1) (Zpos d) ltac:(lia)) as Hdm.
  pose proof (Z.mod_pos_bound (n + Zpos d - 1) (Zpos d) ltac:(lia)) as Hr.
  destruct (Z.ltb_spec (c * Zpos d) n), (Z.ltb_spec c ((n + Zpos d - 1) / Zpos d));
    try reflexivity; exfalso; nia.
Qed.

Lemma below_page_limit m L c :
  page_limit m = Some L -> 0 <= c -> below c m = (c <? L).
Proof.
  destruct m as [n d| | |]; simpl; intros [= <-] Hc; try discriminate.
  - apply ceiling_spec.
  - symmetry. apply Z.ltb_ge. exact Hc.
  - symmetry. apply Z.ltb_ge. exact Hc.
Qed.

Lemma page_limit_Int z : page_limit (Int z) = Some z.
Proof.
  simpl. f_equal. replace (z + 1 - 1) with z by lia. apply Z.div_1_r.
Qed.

Lemma bound_reached_Int c z : bound_reached c (Int z) <-> c = z.
Proof.
  unfold bound_reached. rewrite !below_Int, Z.ltb_lt, Z.ltb_ge. lia.
Qed.

Lemma continues_lt m st :
  continues m st = true -> below (pageCount st) m = true.
Proof.
  unfold continues. intros [_ H]%andb_true_iff. exact H.
Qed.

Lemma continues_limit m L st :
  page_limit m = Some L -> 0 <= pageCount st ->
  continues m st = true -> pageCount st < L.
Proof.
  intros HL Hpc Hc. apply continues_lt in Hc.
  rewrite (below_page_limit m L _ HL Hpc) in Hc. apply Z.ltb_lt. exact Hc.
Qed.

Section LoopEquations.
Context {T : Type}.
Variable getOrders : OrdersOptions -> M T any.
Variable options : option AllOrdersOptions.

Local Abbreviation maxPages := (maxPages_of options).

Lemma loop_stop fuel st s :
  continues maxPages st = false ->
  getAllOrders_loop getOrders options fuel st s = (Ok (Some st), s).
Proof. intros H. destruct fuel; simpl; rewrite H; reflexivity. Qed.

Lemma loop_unfold fuel st s :
  continues maxPages st = true ->
  getAllOrders_loop getOrders options (S fuel) st s =
  match getOrders (page_request options (cursor st)) s with
  | (Ok res, s') =>
      match absorb res st with
      | inl e => (Throw e, s')
      | inr st' => getAllOrders_loop getOrders options fuel st' s'
      end
  | (Throw e, s') => (Throw e, s')
  end.
Proof.
  intros H. simpl. rewrite H. unfold bind.
  destruct (getOrders _ s) as [[res|e] s']; [|reflexivity].
  destruct (absorb res st); reflexivity.
Qed.

End LoopEquations.

Section PaginationFacts.
Context {T : Type}.
Variable getOrders : OrdersOptions -> M T any.
Variable options : option AllOrdersOptions.

Local Abbreviation maxPages := (maxPages_of options).

(** Running the instrumented fetcher is running the fetcher, plus a count
    that grows by at most the number of pages still allowed. *)
Lemma loop_counted L m :
  page_limit maxPages = Some L ->
  forall st s n,
    0 <= pageCount st ->
    (Z.to_nat (L - pageCount st) <= m)%nat ->
    exists r s' k,
      (forall fuel, (m <= fuel)%nat ->
         getAllOrders_loop (counted getOrders) options fuel st (s, n)
           = (r, (s', (n + k)%nat)) /\
         getAllOrders_loop getOrders options fuel st s = (r, s')) /\
      Z.of_nat k <= Z.max 0 (L - pageCount st) /\
      match r with
      | Ok (Some st') =>
          pageCount st' = pageCount st + Z.of_nat k /\
          continues maxPages st' = false
      | Ok None => False
      | Throw _ => True
      end.
Proof.
  intros HL. induction m as [|m IH]; intros st s n Hpos Hm.
  - destruct (continues maxPages st) eqn:Hc.
    { apply (continues_limit _ _ _ HL Hpos) in Hc. lia. }
    exists (Ok (Some st)), s, 0%nat. split; [|split].
    + intros fuel _. rewrite !loop_stop by assumption.
      rewrite Nat.add_0_r. auto.
    + lia.
    + split; [lia | assumption].
  - destruct (continues maxPages st) eqn:Hc.
    2:{ exists (Ok (Some st)), s, 0%nat. split; [|split].
        + intros fuel _. rewrite !loop_stop by assumption.
          rewrite Nat.add_0_r. auto.
        + lia.
        + split; [lia | assumption]. }
    pose proof (continues_limit _ _ _ HL Hpos Hc) as Hlt.
    destruct (getOrders (page_request options (cursor st)) s) as [[res|e] s1] eqn:Hf.
    + destruct (absorb res st) as [e|st1] eqn:Ha.
      * exists (Throw e), s1, 1%nat. split; [|split; [lia | exact I]].
        intros [|fuel] Hfuel; [lia|].
        rewrite !loop_unfold by assumption.
        unfold counted; simpl. rewrite Hf, Ha.
        rewrite Nat.add_1_r. auto.
      * pose proof (absorb_pageCount _ _ _ Ha) as Hpc.
        destruct (IH st1 s1 (S n)) as (r & s' & k & Hrun & Hk & Hr);
          [lia | lia |].
        exists r, s', (S k). split; [|split].
        -- intros [|fuel] Hfuel; [lia|].
           rewrite !loop_unfold by assumption.
           unfold counted at 1; simpl. rewrite Hf, Ha.
           destruct (Hrun fuel) as [H1 H2]; [lia|].
           rewrite H1, H2. split; [|reflexivity].
           do 2 f_equal. lia.
        -- lia.
        -- destruct r as [[st'|]|]; [|assumption..].
           destruct Hr as [Hr1 Hr2]. split; [lia | assumption].
    + exists (Throw e), s1, 1%nat. split; [|split; [lia | exact I]].
      intros [|fuel] Hfuel; [lia|].
      rewrite !loop_unfold by assumption.
      unfold counted; simpl. rewrite Hf.
      rewrite Nat.add_1_r. auto.
Qed.

Lemma reaches_pageCount s0 st s :
  reaches getOrders options s0 st s -> 0 <= pageCount st.
Proof.
  induction 1 as [|st s res s' st' _ IH _ _ Ha]; [simpl; lia|].
  apply absorb_pageCount in Ha. lia.
Qed.

Lemma reaches_bounded L s0 st s :
  page_limit maxPages = Some L ->
  0 <= L ->
  reaches getOrders options s0 st s -> pageCount st <= L.
Proof.
  intros HL Hmax Hreach.
  destruct Hreach as [|st s res s' st' Hreach Hc _ Ha]; [simpl; lia|].
  apply absorb_pageCount in Ha.
  apply (continues_limit _ _ _ HL (reaches_pageCount _ _ _ Hreach)) in Hc.
  lia.
Qed.

End PaginationFacts.

Section PaginationRuns.
Context {T : Type}.
Variable getOrders : OrdersOptions -> M T any.
Variable options : option AllOrdersOptions.

Local Abbreviation maxPages := (maxPages_of options).

Lemma getAllOrders_with_loop fuel s :
  getAllOrders_with getOrders options fuel s =
  match getAllOrders_loop getOrders options fuel loop_init s with
  | (Ok st, s') => (Ok (option_map finish st), s')
  | (Throw e, s') => (Throw e, s')
  end.
Proof.
  unfold getAllOrders_with, bind.
  destruct (getAllOrders_loop _ _ _ _ _) as [[st|e] s']; reflexivity.
Qed.

(** A completed run ends in a reachable state at which the loop condition
    is false. *)
Lemma loop_ends_reachable s0 fuel :
  forall st s stf s',
    reaches getOrders options s0 st s ->
    getAllOrders_loop getOrders options fuel st s = (Ok (Some stf), s') ->
    reaches getOrders options s0 stf s' /\ continues maxPages stf = false.
Proof.
  induction fuel as [|fuel IH]; intros st s stf s' Hr Hrun.
  - simpl in Hrun. destruct (continues maxPages st) eqn:Hc.
    + discriminate Hrun.
    + injection Hrun as <- <-. auto.
  - destruct (continues maxPages st) eqn:Hc.
    + rewrite loop_unfold in Hrun by assumption.
      destruct (getOrders _ s) as [[res|e] s1] eqn:Hf; [|discriminate Hrun].
      destruct (absorb res st) as [e|st1] eqn:Ha; [discriminate Hrun|].
      eapply IH; [|exact Hrun]. eapply reaches_next; eassumption.
    + rewrite loop_stop in Hrun by assumption.
      injection Hrun as <- <-. auto.
Qed.

(** The run from the start passes through every reachable state, using
    one unit of fuel for each page fetched on the way. *)
Lemma loop_follows s0 st s :
  reaches getOrders options s0 st s ->
  forall fuel,
    getAllOrders_loop getOrders options
      (Z.to_nat (pageCount st) + fuel) loop_init s0 =
    getAllOrders_loop getOrders options fuel st s.
Proof.
  induction 1 as [|st s res s' st' Hr IH Hc Hf Ha]; intros fuel.
  - reflexivity.
  - pose proof (reaches_pageCount getOrders options _ _ _ Hr) as Hpos.
    pose proof (absorb_pageCount _ _ _ Ha) as Hpc.
    replace (Z.to_nat (pageCount st') + fuel)%nat
      with (Z.to_nat (pageCount st) + S fuel)%nat by lia.
    rewrite IH, loop_unfold by assumption. rewrite Hf, Ha. reflexivity.
Qed.

End PaginationRuns.

Lemma loop_fuel_mono {T} (getOrders : OrdersOptions -> M T any) options fuel :
  forall st s r s',
    getAllOrders_loop getOrders options fuel st s = (r, s') ->
    r <> Ok None ->
    forall fuel', (fuel <= fuel')%nat ->
      getAllOrders_loop getOrders options fuel' st s = (r, s').
Proof.
  induction fuel as [|fuel IH]; intros st s r s' Hrun Hr fuel' Hle.
  - simpl in Hrun. destruct (continues (maxPages_of options) st) eqn:Hc.
    + injection Hrun as <- <-. contradiction.
    + rewrite loop_stop by assumption. exact Hrun.
  - destruct (continues (maxPages_of options) st) eqn:Hc.
    + destruct fuel' as [|fuel']; [lia|].
      rewrite loop_unfold in * by assumption.
      destruct (getOrders _ s) as [[res|e] s1]; [|exact Hrun].
      destruct (absorb res st) as [e|st1]; [exact Hrun|].
      apply IH; [assumption..|lia].
    + rewrite loop_stop in * by assumption. exact Hrun.
Qed.

Lemma absorb_page items next endCursor st :
  absorb (page items next endCursor) st =
  inr {| allOrders := allOrders st ++ items;
         cursor := endCursor;
         hasNextPage := VBool next;
         pageCount := pageCount st + 1 |}.
Proof. reflexivity. Qed.

(** With [maxPages] infinite, a source that always announces a further
    page keeps the loop running for as long as there is fuel. *)
Lemma loop_endless_forever fuel :
  forall items c pc n,
    getAllOrders_loop endless (with_maxPages_number Infinity) fuel
      {| allOrders := items; cursor := c;
         hasNextPage := VBool true; pageCount := pc |} n =
    (Ok None, (n + fuel)%nat).
Proof.
  induction fuel as [|fuel IH]; intros items c pc n.
  - simpl. rewrite Nat.add_0_r. reflexivity.
  - rewrite loop_unfold by reflexivity.
    unfold endless at 1. rewrite absorb_page, IH.
    rewrite Nat.add_succ_r. reflexivity.
Qed.

(** C1, as stated, fails for a [maxPages] that is not a whole number or
    is infinite.  With [maxPages = 2.5] the loop reaches a [pageCount] of
    3, and with [maxPages = Infinity] it never stops on a source that
    always announces a further page. *)
Lemma getAllOrders_exceeds_fractional_maxPages :
  ~ pageCount_within_maxPages endless
      (with_maxPages_number (Ratio 5 2)) 0%nat /\
  forall fuel,
    getAllOrders_with endless (with_maxPages_number Infinity) fuel 0%nat =
    (Ok None, fuel).
Proof.
  split.
  - intros H.
    assert (Hreach :
              exists st, reaches endless (with_maxPages_number (Ratio 5 2))
                           0%nat st 3%nat /\ pageCount st = 3).
    { eexists. split.
      - eapply reaches_next;
          [eapply reaches_next;
             [eapply reaches_next; [apply reaches_init | reflexivity..]
             | reflexivity..]
          | reflexivity..].
      - reflexivity. }
    destruct Hreach as (st & Hreach & Hpc).
    specialize (H st 3%nat Hreach). rewrite Hpc in H. discriminate H.
  - intros fuel. rewrite getAllOrders_with_loop.
    unfold loop_init. rewrite loop_endless_forever. reflexivity.
Qed.

(** C1 (amended to finite [maxPages], with its ceiling [L] as the
    bound): for every page fetcher and every positive finite [maxPages]
    whose ceiling [L] is within the range in which the counter is exact,
    a run of [getAllOrders] with at least [L] units of fuel completes (it
    returns or throws, it never runs out of fuel), the outcome does not
    depend on the fuel, the instrumented fetcher is called [k <= L]
    times, and [pageCount] is at most [L] in every state the loop passes
    through.  [L] is the least whole number that is not below
    [maxPages], so it is [maxPages] itself when that is a whole number.
    Nothing is assumed about the pages: the pagination metadata may
    announce further pages forever or have any shape. *)
Theorem getAllOrders_terminates_within_maxPages {T}
  (getOrders : OrdersOptions -> M T any)
  (options : option AllOrdersOptions) (s : T) (n : nat) (L : Z) :
  below 0 (maxPages_of options) = true ->
  page_limit (maxPages_of options) = Some L ->
  L <= exact_count_limit ->
  (exists r s' k,
      (forall fuel, (Z.to_nat L <= fuel)%nat ->
         getAllOrders_with (counted getOrders) options fuel (s, n)
           = (r, (s', (n + k)%nat)) /\
         getAllOrders_with getOrders options fuel s = (r, s')) /\
      r <> Ok None /\
      Z.of_nat k <= L) /\
  (forall st s',
      reaches getOrders options s st s' ->
      pageCount st <= L) /\
  bound_reached L (maxPages_of options) /\
  (forall z, maxPages_of options = Int z -> L = z).
Proof.
  intros Hpos HL _.
  assert (HLpos : 0 < L).
  { rewrite (below_page_limit _ _ 0 HL ltac:(lia)) in Hpos.
    apply Z.ltb_lt. exact Hpos. }
  split; [|split; [|split]].
  - destruct (loop_counted getOrders options L (Z.to_nat L) HL
                loop_init s n) as (r & s' & k & Hrun & Hk & Hr).
    { simpl. lia. }
    { simpl. rewrite Z.sub_0_r. reflexivity. }
    simpl in Hk. rewrite Z.sub_0_r in Hk.
    exists (match r with
            | Ok st => Ok (option_map finish st)
            | Throw e => Throw e
            end), s', k.
    split; [|split].
    + intros fuel Hfuel. destruct (Hrun fuel Hfuel) as [H1 H2].
      rewrite !getAllOrders_with_loop, H1, H2.
      destruct r; auto.
    + destruct r as [[st|]|e]; [discriminate | contradiction | discriminate].
    + lia.
  - intros st s' Hreach. eapply reaches_bounded; [exact HL | lia | exact Hreach].
  - unfold bound_reached.
    rewrite !(below_page_limit _ _ _ HL) by lia.
    split; [apply Z.ltb_lt | apply Z.ltb_ge]; lia.
  - intros z Hz. rewrite Hz, page_limit_Int in HL. congruence.
Qed.

Lemma getAllOrders_terminates_within_maxPages_witness :
  below 0 (maxPages_of (with_maxPages_number (Ratio 5 2))) = true /\
  page_limit (maxPages_of (with_maxPages_number (Ratio 5 2))) = Some 3 /\
  3 <= exact_count_limit /\
  forall st s',
    reaches endless (with_maxPages_number (Ratio 5 2)) 0%nat st s' ->
    pageCount st <= 3.
Proof.
  split; [reflexivity|]. split; [reflexivity|].
  split; [vm_compute; discriminate|].
  refine (proj1 (proj2 (getAllOrders_terminates_within_maxPages
                          endless (with_maxPages_number (Ratio 5 2))
                          0%nat 0%nat 3 eq_refl eq_refl _))).
  vm_compute; discriminate.
Defined.

(** C10: when [maxPages] is zero or negative (or anything else that zero
    is not below) the loop body never runs: whatever the fetcher and the
    fuel, the state is returned untouched and the result is
    [{orders: [], totalFetched: 0, hasMore: true}]. *)
Theorem getAllOrders_nonpositive_maxPages {T}
  (getOrders : OrdersOptions -> M T any)
  (options : option AllOrdersOptions) (fuel : nat) (s : T) :
  below 0 (maxPages_of options) = false ->
  getAllOrders_with getOrders options fuel s =
  (Ok (Some {| orders := []; totalFetched := 0; hasMore := VBool true |}), s).
Proof.
  intros Hle. rewrite getAllOrders_with_loop, loop_stop; [reflexivity|].
  unfold continues. simpl. exact Hle.
Qed.

Lemma getAllOrders_nonpositive_maxPages_witness :
  below 0 (maxPages_of (with_maxPages (-2))) = false /\
  getAllOrders_with (counted endless) (with_maxPages (-2)) 7 (0%nat, 0%nat) =
  (Ok (Some {| orders := []; totalFetched := 0; hasMore := VBool true |}),
   (0%nat, 0%nat)).
Proof.
  split; [reflexivity|].
  apply getAllOrders_nonpositive_maxPages. reflexivity.
Defined.

(** C2, as stated, fails for [maxPages = 0]: [hasMore] is [true] although
    no page was fetched, so there is no last page that announced more. *)
Lemma hasMore_true_without_any_page :
  ~ hasMore_iff_bound_hit endless (with_maxPages 0) 0%nat.
Proof.
  intros H.
  destruct (H 0%nat
              {| orders := []; totalFetched := 0; hasMore := VBool true |}
              0%nat eq_refl) as [Hex _].
  destruct (Hex eq_refl) as (st & s & res & st' & Hreach & Hc & _).
  apply continues_lt in Hc. apply reaches_pageCount in Hreach.
  change (maxPages_of (with_maxPages 0)) with (Int 0) in Hc.
  rewrite below_Int in Hc. apply Z.ltb_lt in Hc. lia.
Qed.

(** C2 (amended to positive [maxPages]): in a completed run some page was
    fetched last and [hasMore] is the flag taken from that page; it is
    [true] exactly when that page announced a further page and the page
    count had reached [maxPages] (it equals [maxPages] when that is a whole
    number), and it is that page's [false] when the source was exhausted.
    With a page limit of 3 and a fetcher whose pages always announce a
    further page, exactly the three pages fetched in sequence are
    returned, with [hasMore = true]. *)
Theorem hasMore_reflects_last_page {T}
  (getOrders : OrdersOptions -> M T any)
  (options : option AllOrdersOptions) (s0 : T) :
  below 0 (maxPages_of options) = true ->
  hasMore_iff_bound_hit getOrders options s0 /\
  (forall fuel r s',
      getAllOrders_with getOrders options fuel s0 = (Ok (Some r), s') ->
      exists st s res st',
        reaches getOrders options s0 st s /\
        continues (maxPages_of options) st = true /\
        getOrders (page_request options (cursor st)) s = (Ok res, s') /\
        absorb res st = inr st' /\
        r = finish st' /\
        hasMore r = hasNextPage st' /\
        (JS.truthy (hasNextPage st') = true ->
         bound_reached (pageCount st') (maxPages_of options) /\
         forall z, maxPages_of options = Int z -> pageCount st' = z)) /\
  (page_limit (maxPages_of options) = Some 3 ->
   (forall o s, exists items c s',
       getOrders o s = (Ok (page items true c), s')) ->
   forall fuel, (3 <= fuel)%nat ->
     exists i1 c1 s1 i2 c2 s2 i3 c3 s3,
       getOrders (page_request options VUndefined) s0
         = (Ok (page i1 true c1), s1) /\
       getOrders (page_request options c1) s1
         = (Ok (page i2 true c2), s2) /\
       getOrders (page_request options c2) s2
         = (Ok (page i3 true c3), s3) /\
       getAllOrders_with getOrders options fuel s0 =
       (Ok (Some {| orders := i1 ++ i2 ++ i3;
                    totalFetched := Z.of_nat (length (i1 ++ i2 ++ i3));
                    hasMore := VBool true |}), s3)).
Proof.
  intros Hpos.
  assert (Hlast : forall fuel r s',
      getAllOrders_with getOrders options fuel s0 = (Ok (Some r), s') ->
      exists st s res st',
        reaches getOrders options s0 st s /\
        continues (maxPages_of options) st = true /\
        getOrders (page_request options (cursor st)) s = (Ok res, s') /\
        absorb res st = inr st' /\
        r = finish st' /\
        hasMore r = hasNextPage st' /\
        (JS.truthy (hasNextPage st') = true ->
         bound_reached (pageCount st') (maxPages_of options) /\
         forall z, maxPages_of options = Int z -> pageCount st' = z)).
  { intros fuel r s' Hrun. rewrite getAllOrders_with_loop in Hrun.
    destruct (getAllOrders_loop _ _ _ _ _) as [[[stf|]|e] sf] eqn:Hloop;
      simpl in Hrun; try discriminate Hrun.
    injection Hrun as <- <-.
    destruct (loop_ends_reachable getOrders options s0 fuel _ _ _ _
                (reaches_init _ _ _) Hloop) as [Hreach Hstop].
    inversion Hreach as [Hinit | st s res s'' st' Hr Hc Hf Ha]; subst.
    - exfalso. unfold continues in Hstop. simpl in Hstop.
      rewrite Hpos in Hstop. discriminate Hstop.
    - exists st, s, res, stf. repeat (split; [assumption || reflexivity|]).
      intros Htruthy. unfold continues in Hstop. rewrite Htruthy in Hstop.
      simpl in Hstop.
      assert (Hb : bound_reached (pageCount stf) (maxPages_of options)).
      { split; [|exact Hstop].
        rewrite (absorb_pageCount _ _ _ Ha).
        replace (pageCount st + 1 - 1) with (pageCount st) by lia.
        apply continues_lt. exact Hc. }
      split; [exact Hb|].
      intros z Hz. rewrite Hz in Hb. apply bound_reached_Int. exact Hb. }
  split; [|split; [exact Hlast|]].
  - intros fuel r s' Hrun. split.
    + intros Htrue.
      destruct (Hlast fuel r s' Hrun)
        as (st & s & res & st' & Hr & Hc & Hf & Ha & _ & Heq & Hbound).
      exists st, s, res, st'. rewrite Htrue in Heq.
      repeat (split; [assumption|]). split; [congruence|].
      apply Hbound. rewrite <- Heq. reflexivity.
    + intros (st & s & res & st' & Hr & Hc & Hf & Ha & Hnext & Hpc).
      assert (Hr' : reaches getOrders options s0 st' s')
        by (eapply reaches_next; eassumption).
      pose proof (loop_follows getOrders options s0 st' s' Hr' fuel) as Heq.
      rewrite (loop_stop _ _ fuel st') in Heq
        by (unfold continues; rewrite (proj2 Hpc), andb_false_r;
            reflexivity).
      rewrite getAllOrders_with_loop in Hrun.
      destruct (getAllOrders_loop _ _ fuel _ _) as [[[stf|]|e] sf] eqn:Hloop;
        simpl in Hrun; try discriminate Hrun.
      injection Hrun as <- <-.
      eapply loop_fuel_mono in Hloop; [|discriminate|apply Nat.le_add_l].
      rewrite Hloop in Heq. injection Heq as ->. exact Hnext.
  - intros Hmax Halways fuel Hfuel.
    destruct (Halways (page_request options VUndefined) s0)
      as (i1 & c1 & s1 & H1).
    destruct (Halways (page_request options c1) s1)
      as (i2 & c2 & s2 & H2).
    destruct (Halways (page_request options c2) s2)
      as (i3 & c3 & s3 & H3).
    exists i1, c1, s1, i2, c2, s2, i3, c3, s3.
    repeat (split; [assumption|]).
    destruct fuel as [|[|[|fuel]]]; try lia.
    assert (Hc : forall items c pc,
               0 <= pc ->
               continues (maxPages_of options)
                 {| allOrders := items; cursor := c;
                    hasNextPage := VBool true; pageCount := pc |} =
               (pc <? 3)).
    { intros items c pc Hpc. unfold continues. simpl.
      apply (below_page_limit _ _ _ Hmax Hpc). }
    rewrite getAllOrders_with_loop.
    rewrite loop_unfold by (unfold loop_init; rewrite Hc by lia; reflexivity).
    cbn [cursor loop_init]. rewrite H1. cbv beta iota.
    rewrite absorb_page. cbv beta iota.
    rewrite loop_unfold by (rewrite Hc by (simpl; lia); reflexivity).
    cbn [cursor]. rewrite H2. cbv beta iota.
    rewrite absorb_page. cbv beta iota.
    rewrite loop_unfold by (rewrite Hc by (simpl; lia); reflexivity).
    cbn [cursor]. rewrite H3. cbv beta iota.
    rewrite absorb_page. cbv beta iota.
    rewrite loop_stop by (rewrite Hc by (simpl; lia); reflexivity).
    unfold finish. cbn [allOrders hasNextPage option_map loop_init app].
    rewrite <- app_assoc. reflexivity.
Qed.

Lemma hasMore_reflects_last_page_witness :
  below 0 (maxPages_of (with_maxPages 3)) = true /\
  hasMore_iff_bound_hit endless (with_maxPages 3) 0%nat.
Proof.
  split; [reflexivity|].
  exact (proj1 (hasMore_reflects_last_page
                  endless (with_maxPages 3) 0%nat eq_refl)).
Defined.

(** C3: when the first page announces a further page, the second page
    announces none and [maxPages] is above one, [getAllOrders] ends in
    the state left by the second fetch and returns the items of page 1
    followed by those of page 2, with [hasMore = false]. *)
Theorem getAllOrders_stops_on_exhaustion {T}
  (getOrders : OrdersOptions -> M T any)
  (options : option AllOrdersOptions)
  (s0 s1 s2 : T) (i1 i2 : list any) (c1 c2 : any) (fuel : nat) :
  below 1 (maxPages_of options) = true ->
  (2 <= fuel)%nat ->
  getOrders (page_request options VUndefined) s0
    = (Ok (page i1 true c1), s1) ->
  getOrders (page_request options c1) s1
    = (Ok (page i2 false c2), s2) ->
  getAllOrders_with getOrders options fuel s0 =
  (Ok (Some {| orders := i1 ++ i2;
               totalFetched := Z.of_nat (length (i1 ++ i2));
               hasMore := VBool false |}), s2).
Proof.
  intros Hmax Hfuel H1 H2.
  destruct fuel as [|[|fuel]]; try lia.
  assert (Hc : forall items c pc,
             pc < 2 ->
             continues (maxPages_of options)
               {| allOrders := items; cursor := c;
                  hasNextPage := VBool true; pageCount := pc |} = true).
  { intros items c pc Hpc. unfold continues. simpl.
    apply (below_mono 1); [lia | exact Hmax]. }
  rewrite getAllOrders_with_loop.
  rewrite loop_unfold by (apply Hc; lia).
  cbn [cursor loop_init]. rewrite H1. cbv beta iota.
  rewrite absorb_page. cbv beta iota.
  rewrite loop_unfold by (apply Hc; simpl; lia).
  cbn [cursor]. rewrite H2. cbv beta iota.
  rewrite absorb_page. cbv beta iota.
  rewrite loop_stop by reflexivity.
  reflexivity.
Qed.

Lemma getAllOrders_stops_on_exhaustion_witness :
  getAllOrders_with two_pages (with_maxPages 50) 50 0%nat =
  (Ok (Some {| orders := [VStr "#1001"; VStr "#1002"; VStr "#1003"];
               totalFetched := 3;
               hasMore := VBool false |}), 2%nat).
Proof.
  apply (getAllOrders_stops_on_exhaustion two_pages (with_maxPages 50)
           0%nat 1%nat 2%nat [VStr "#1001"; VStr "#1002"] [VStr "#1003"]
           (VStr "c1") VNull 50).
  - reflexivity.
  - repeat constructor.
  - reflexivity.
  - reflexivity.
Defined.

(** C4: if the fetch issued from any state the loop passes through fails,
    [getAllOrders] throws that very failure and ends in the state the
    failed fetch left behind: nothing more is fetched and the orders
    accumulated so far are not returned. *)
Theorem getAllOrders_fetch_failure_propagates {T}
  (getOrders : OrdersOptions -> M T any)
  (options : option AllOrdersOptions)
  (s0 : T) (st : LoopState) (s s' : T) (e : exn) (fuel : nat) :
  reaches getOrders options s0 st s ->
  continues (maxPages_of options) st = true ->
  getOrders (page_request options (cursor st)) s = (Throw e, s') ->
  (Z.to_nat (pageCount st) < fuel)%nat ->
  getAllOrders_with getOrders options fuel s0 = (Throw e, s').
Proof.
  intros Hreach Hc Hf Hfuel.
  replace fuel
    with (Z.to_nat (pageCount st) + S (fuel - S (Z.to_nat (pageCount st))))%nat
    by lia.
  rewrite getAllOrders_with_loop, (loop_follows _ _ _ _ _ Hreach).
  rewrite loop_unfold by assumption.
  rewrite Hf. reflexivity.
Qed.

Lemma getAllOrders_fetch_failure_propagates_witness :
  getAllOrders_with failing_second (with_maxPages 4) 4 0%nat =
  (Throw (Error "Throttled"), 2%nat).
Proof.
  apply (getAllOrders_fetch_failure_propagates failing_second
           (with_maxPages 4) 0%nat
           {| allOrders := [VStr "#1001"]; cursor := VStr "c1";
              hasNextPage := VBool true; pageCount := 1 |}
           1%nat 2%nat (Error "Throttled") 4).
  - eapply (reaches_next failing_second (with_maxPages 4) 0%nat
              loop_init 0%nat);
      [apply reaches_init | reflexivity | reflexivity | reflexivity].
  - reflexivity.
  - reflexivity.
  - vm_compute. repeat constructor.
Defined.

(** A response is rejected exactly when it is [null] or [undefined], or
    when its [orders] property is truthy but not iterable. *)
Lemma absorb_throws res st :
  (exists e, absorb res st = inl e) <->
  JS.nullish res = true \/
  (exists fs, res = VObj fs /\
              JS.truthy (JS.get_prop res "orders") = true /\
              match JS.get_prop res "orders" with
              | VArr _ | VStr _ => False
              | _ => True
              end).
Proof.
  unfold absorb, JS.member. split.
  - intros [e He]. destruct res; simpl in He; try discriminate He; auto.
    right. exists fields. split; [reflexivity|].
    simpl. destruct (default VUndefined (JS.lookup_field "orders" fields));
      simpl in *; try discriminate He; auto;
      destruct b || destruct (negb _); try discriminate He; auto.
  - intros [Hn | (fs & -> & Ht & Hshape)].
    + destruct res; try discriminate Hn; simpl; eauto.
    + simpl in *. rewrite Ht.
      destruct (default VUndefined (JS.lookup_field "orders" fs));
        simpl in *; try contradiction; eauto.
Qed.

(** C6 fails on the code: a page fetch that resolves to [null] makes
    [getAllOrders] throw a [TypeError] instead of counting the value as a
    single page. *)
Theorem getAllOrders_null_page_throws :
  getAllOrders_with null_page (with_maxPages 10) 10 0%nat =
  (Throw (TypeError "Cannot read properties of null (reading 'orders')"), 1%nat).
Proof. reflexivity. Qed.

(** ** Cache keys *)

Lemma leb_spec_lt a b :
  String.leb a b = true <-> a = b \/ String_as_OT.lt a b.
Proof.
  unfold String.leb. rewrite <- String_as_OT.cmp_lt, <- String_as_OT.cmp_eq.
  unfold String_as_OT.cmp. destruct (String.compare a b); split; intros H;
    auto; try discriminate; destruct H; discriminate.
Qed.

Lemma leb_trans a b c :
  String.leb a b = true -> String.leb b c = true -> String.leb a c = true.
Proof.
  rewrite !leb_spec_lt. intros [->|Hab] [->|Hbc]; auto.
  right. eapply String_as_OT.lt_trans; eassumption.
Qed.

Lemma leb_false_flip a b :
  String.leb a b = false -> String.leb b a = true.
Proof.
  intros H. destruct (String.leb_total a b) as [H'|H']; congruence.
Qed.

Lemma insert_param_comm a b l :
  a.1 <> b.1 ->
  insert_param a (insert_param b l) = insert_param b (insert_param a l).
Proof.
  intros Hne. induction l as [|x l IH]; simpl.
  - destruct (String.leb a.1 b.1) eqn:Hab, (String.leb b.1 a.1) eqn:Hba;
      try reflexivity.
    + exfalso. apply Hne. apply String.leb_antisym; assumption.
    + apply leb_false_flip in Hab. congruence.
  - destruct (String.leb b.1 x.1) eqn:Hbx, (String.leb a.1 x.1) eqn:Hax;
      simpl; rewrite ?Hbx, ?Hax.
    + destruct (String.leb a.1 b.1) eqn:Hab, (String.leb b.1 a.1) eqn:Hba;
        try reflexivity.
      * exfalso. apply Hne. apply String.leb_antisym; assumption.
      * apply leb_false_flip in Hab. congruence.
    + destruct (String.leb a.1 b.1) eqn:Hab.
      * rewrite (leb_trans _ _ _ Hab Hbx) in Hax. discriminate.
      * reflexivity.
    + destruct (String.leb b.1 a.1) eqn:Hba.
      * rewrite (leb_trans _ _ _ Hba Hax) in Hbx. discriminate.
      * reflexivity.
    + rewrite IH. reflexivity.
Qed.

Lemma sort_params_perm l1 l2 :
  Permutation l1 l2 -> NoDup (map fst l1) -> sort_params l1 = sort_params l2.
Proof.
  induction 1 as [|x l1 l2 Hp IH|x y l|l1 l2 l3 Hp1 IH1 Hp2 IH2]; intros Hnd.
  - reflexivity.
  - simpl. rewrite IH; [reflexivity|]. simpl in Hnd.
    apply NoDup_cons in Hnd. tauto.
  - simpl. apply insert_param_comm. simpl in Hnd.
    apply NoDup_cons in Hnd as [Hnotin _]. intros Heq. apply Hnotin.
    rewrite Heq. left.
  - rewrite IH1 by assumption. apply IH2.
    assert (Hm : Permutation (map fst l1) (map fst l2))
      by (apply Permutation_map; assumption).
    rewrite <- Hm. exact Hnd.
Qed.

Lemma filter_present_perm (l1 l2 : list (string * any)) :
  Permutation l1 l2 ->
  Permutation (List.filter present l1) (List.filter present l2).
Proof.
  induction 1 as [|x l1 l2 Hp IH|x y l|l1 l2 l3 Hp1 IH1 Hp2 IH2]; simpl.
  - constructor.
  - destruct (present x); [constructor|]; assumption.
  - destruct (present x), (present y); try reflexivity. constructor.
  - etransitivity; eassumption.
Qed.

Lemma filter_present_NoDup (l : list (string * any)) :
  NoDup (map fst l) -> NoDup (map fst (List.filter present l)).
Proof.
  induction l as [|x l IH]; simpl; intros Hnd; [constructor|].
  apply NoDup_cons in Hnd as [Hnotin Hnd].
  destruct (present x); simpl; [|auto].
  apply NoDup_cons. split; [|auto].
  intros Hin. apply Hnotin.
  apply list_elem_of_In in Hin. apply list_elem_of_In.
  apply in_map_iff in Hin as (y & <- & Hy).
  apply in_map. apply filter_In in Hy. tauto.
Qed.

Lemma filter_present_idem (l : list (string * any)) :
  List.filter present (List.filter present l) = List.filter present l.
Proof.
  induction l as [|x l IH]; simpl; [reflexivity|].
  destruct (present x) eqn:Hx; simpl; rewrite ?Hx, IH; reflexivity.
Qed.

Lemma prefix_append a b : String.prefix a (a +:+ b) = true.
Proof.
  induction a as [|c a IH]; simpl; [destruct b; reflexivity|].
  destruct (ascii_dec c c); [assumption | contradiction].
Qed.

Example createCacheKey_orders_open :
  createCacheKey "orders"
    [("status", VStr "open"); ("limit", VUndefined)] = "orders:status=open".
Proof. reflexivity. Qed.

Example createCacheKey_order_42 :
  createCacheKey "order" [("id", VStr "42")] = "order:id=42".
Proof. reflexivity. Qed.

(** C8: the key does not depend on the order in which the parameters of a
    mapping (distinct names) were inserted, parameters whose value is
    absent do not contribute to it, and it begins with the namespace. *)
Theorem createCacheKey_deterministic
  (namespace : string) (p1 p2 : list (string * any)) :
  NoDup (map fst p1) ->
  Permutation p1 p2 ->
  createCacheKey namespace p1 = createCacheKey namespace p2 /\
  createCacheKey namespace p1 =
    createCacheKey namespace (List.filter present p1) /\
  (forall k, createCacheKey namespace ((k, VUndefined) :: p1) =
             createCacheKey namespace p1) /\
  String.prefix namespace (createCacheKey namespace p1) = true.
Proof.
  intros Hnd Hperm. unfold createCacheKey. repeat split.
  - rewrite (sort_params_perm (List.filter present p1)
               (List.filter present p2)); [reflexivity| |].
    + apply filter_present_perm. assumption.
    + apply filter_present_NoDup. assumption.
  - rewrite filter_present_idem. reflexivity.
  - apply prefix_append.
Qed.

Lemma createCacheKey_deterministic_witness :
  createCacheKey "orders"
    [("status", VStr "open"); ("limit", VNum 50); ("after", VUndefined)] =
  createCacheKey "orders"
    [("limit", VNum 50); ("after", VUndefined); ("status", VStr "open")].
Proof.
  refine (proj1 (createCacheKey_deterministic "orders"
            [("status", VStr "open"); ("limit", VNum 50); ("after", VUndefined)]
            [("limit", VNum 50); ("after", VUndefined); ("status", VStr "open")]
            _ _)).
  - apply NoDup_ListNoDup. repeat constructor; simpl; intuition discriminate.
  - apply Permutation_cons_append.
Defined.

(** ** The client and its cache *)

Section ClientFacts.
Context {W : Type}.
Variable clock : W -> Z.
Variable transport :
  string -> list (string * any) -> W -> (exn + ToolResult) * W.
Variable JSON_parse : string -> option any.

Local Abbreviation St := (State W).

(** A tool call leaves the cache alone and is recorded once. *)
Lemma callTool_frame name args (s : St) :
  let s' := (callTool transport JSON_parse name args s).2 in
  cache s' = cache s /\
  cacheDisabled s' = cacheDisabled s /\
  history s' = history s ++ [ToolCalled name args].
Proof.
  unfold callTool. simpl.
  destruct (transport name args (world s)) as [[e|r] w]; simpl; [auto|].
  destruct (isError r); simpl; [auto|].
  destruct (find_text (content r) ≫= c_text) as [t|]; simpl; [|auto].
  destruct (String.eqb t ""); simpl; [auto|].
  destruct (JSON_parse t); simpl; auto.
Qed.

Lemma mutation_contract tool args pre :
  invalidates_only_on_success
    (let* res := callTool transport JSON_parse tool args in
     let* _ := invalidatePattern pre in
     ret res)
    (callTool transport JSON_parse tool args) tool args pre.
Proof.
  intros s. pose proof (callTool_frame tool args s) as (Hc & _ & Hh).
  unfold bind, invalidatePattern, ret.
  destruct (callTool transport JSON_parse tool args s) as [[res|e] s1];
    simpl in *.
  - rewrite Hc. destruct (Cache.invalidatePattern pre (cache s)). auto.
  - auto.
Qed.

Lemma getOrFetch_hit key (f : M St any) ttl (s : St) e :
  enabled (cache s) = true ->
  entries (cache s) !! key = Some e ->
  clock (world s) < expiresAt e ->
  getOrFetch clock key f ttl false s =
  (Ok (value e), with_cache (Cache.count_hit (cache s)) s).
Proof.
  intros Hen He Hfresh. unfold getOrFetch. rewrite Hen, He. simpl.
  unfold Cache.fresh. apply Z.ltb_lt in Hfresh. rewrite Hfresh. reflexivity.
Qed.

Lemma getOrFetch_absent key (f : M St any) ttl bypass (s : St) :
  entries (cache s) !! key = None ->
  getOrFetch clock key f ttl bypass s =
  match f s with
  | (Ok v, s') =>
      (Ok v,
       if bypass || negb (enabled (cache s)) then s'
       else with_cache
              (Cache.store key v (clock (world s')) ttl (cache s')) s')
  | (Throw e, s') => (Throw e, s')
  end.
Proof.
  intros Hnone. unfold getOrFetch. rewrite Hnone.
  destruct (bypass || negb (enabled (cache s)));
    destruct (f s) as [[v|e] s']; reflexivity.
Qed.

Lemma getOrFetch_leaves_entry key (f : M St any) ttl (s s1 : St) v :
  enabled (cache s) = true ->
  getOrFetch clock key f ttl false s = (Ok v, s1) ->
  exists e,
    entries (cache s1) !! key = Some e /\
    value e = v /\
    (uncached clock key s -> expiresAt e = clock (world s1) + ttl).
Proof.
  intros Hen Hrun. unfold getOrFetch in Hrun. rewrite Hen in Hrun.
  simpl in Hrun. unfold uncached.
  destruct (entries (cache s) !! key) as [e0|] eqn:He0.
  - destruct (Cache.fresh (clock (world s)) e0).
    + injection Hrun as <- <-. exists e0. simpl.
      repeat split; auto; discriminate.
    + destruct (f _) as [[v'|e'] s'] eqn:Hf; [|discriminate Hrun].
      injection Hrun as <- <-. eexists. simpl. rewrite lookup_insert_eq.
      repeat split.
  - destruct (f s) as [[v'|e'] s'] eqn:Hf; [|discriminate Hrun].
    injection Hrun as <- <-. eexists. simpl. rewrite lookup_insert_eq.
    repeat split.
Qed.

(** On an uncached key the tool behind a cached read is called once. *)
Lemma getOrFetch_uncached_calls key name args ttl (s s1 : St) r :
  enabled (cache s) = true ->
  uncached clock key s ->
  getOrFetch clock key (callTool transport JSON_parse name args) ttl false s
    = (r, s1) ->
  history s1 = history s ++ [ToolCalled name args].
Proof.
  intros Hen Hun Hrun. unfold getOrFetch in Hrun. rewrite Hen in Hrun.
  simpl in Hrun. unfold uncached in Hun.
  destruct (entries (cache s) !! key) as [e0|].
  - rewrite Hun in Hrun.
    match type of Hrun with
    | context [callTool _ _ _ _ ?s0] =>
        pose proof (callTool_frame name args s0) as (_ & _ & Hh);
        destruct (callTool transport JSON_parse name args s0) as [[v|e] s']
    end; injection Hrun as <- <-; exact Hh.
  - pose proof (callTool_frame name args s) as (_ & _ & Hh).
    destruct (callTool transport JSON_parse name args s) as [[v|e] s'];
      injection Hrun as <- <-; exact Hh.
Qed.

End ClientFacts.

(** C5: each of the four mutations calls its tool first and invalidates
    its key prefix only once that call has resolved; when the call throws,
    the mutation throws the same error, no invalidation is recorded and
    the cache is exactly the one the mutation started with. *)
Theorem mutations_invalidate_only_on_success {W}
  (transport : string -> list (string * any) -> W -> (exn + ToolResult) * W)
  (JSON_parse : string -> option any) :
  (forall orderId updates,
      let args := JS.assign [("id", VStr orderId)] updates in
      invalidates_only_on_success
        (updateOrder transport JSON_parse orderId updates)
        (callTool transport JSON_parse "update-order" args)
        "update-order" args "order") /\
  (forall fulfillmentId trackingNumber options,
      let args := JS.assign [("fulfillmentId", VStr fulfillmentId);
                             ("trackingNumber", VStr trackingNumber)]
                            (default [] options) in
      invalidates_only_on_success
        (updateFulfillmentTracking transport JSON_parse
           fulfillmentId trackingNumber options)
        (callTool transport JSON_parse "update-fulfillment-tracking" args)
        "update-fulfillment-tracking" args "order") /\
  (forall product,
      invalidates_only_on_success
        (createProduct transport JSON_parse product)
        (callTool transport JSON_parse "createProduct" product)
        "createProduct" product "products") /\
  (forall customerId updates,
      let args := JS.assign [("id", VStr customerId)] updates in
      invalidates_only_on_success
        (updateCustomer transport JSON_parse customerId updates)
        (callTool transport JSON_parse "update-customer" args)
        "update-customer" args "customer").
Proof.
  repeat split; intros; apply mutation_contract.
Qed.

(** A failed [update-order] on the sample deployment: the error comes
    back and the warm cache is untouched. *)
Lemma mutations_invalidate_only_on_success_witness :
  let s := client_at 100 warm_cache false in
  let out := updateOrder (rejecting "Order not found") sample_parse
               "gid://shopify/Order/42" [("note", VStr "gift")] s in
  out.1 = Throw (Error "Order not found") /\
  cache out.2 = warm_cache /\
  history out.2 =
    [ToolCalled "update-order"
       [("id", VStr "gid://shopify/Order/42"); ("note", VStr "gift")]].
Proof.
  pose proof (proj1 (mutations_invalidate_only_on_success
                       (rejecting "Order not found") sample_parse)
                "gid://shopify/Order/42" [("note", VStr "gift")]
                (client_at 100 warm_cache false)) as H.
  cbv zeta in *. unfold invalidates_only_on_success in H.
  change (callTool (rejecting "Order not found") sample_parse "update-order"
            (JS.assign [("id", VStr "gid://shopify/Order/42")]
               [("note", VStr "gift")]) (client_at 100 warm_cache false))
    with (@Throw any (Error "Order not found"),
          record_event
            (ToolCalled "update-order"
               [("id", VStr "gid://shopify/Order/42"); ("note", VStr "gift")])
            (client_at 101 warm_cache false)) in H.
  cbv beta iota in H. destruct H as (Hop & Hc & Hh).
  rewrite Hop. repeat split.
Defined.

(** With the cache switched off every [getOrders] goes to the server. *)
Example getOrders_bypassed_when_disabled :
  let s := (disableCache (client_at 1000 Cache.create false)).2 in
  let first := getOrders (fun now : Z => now) (replying "[]") sample_parse
                 None s in
  let second := getOrders (fun now : Z => now) (replying "[]") sample_parse
                  None first.2 in
  history second.2 = [ToolCalled "get-orders" []; ToolCalled "get-orders" []].
Proof. reflexivity. Qed.

(** C7: with the store enabled and the cache not bypassed, a
    [getOrFetch] that returned [v] leaves an entry holding [v] under the
    key (expiring [ttl] after the fetch completed when the key was not
    cached before); as long as that entry is still there and has not
    expired, a further [getOrFetch] on the key returns [v] whatever its
    fetch function is, changing nothing but the hit counter.  For
    [getOrders]: a first call on an uncached query invokes the
    [get-orders] tool once, and an identical call less than
    [TTL.FIVE_MINUTES] later returns the same value without any tool
    call. *)
Theorem getOrFetch_read_through {W} (clock : W -> Z)
  (transport : string -> list (string * any) -> W -> (exn + ToolResult) * W)
  (JSON_parse : string -> option any) :
  (forall key (f : M (State W) any) ttl (s s1 : State W) v,
      enabled (cache s) = true ->
      getOrFetch clock key f ttl false s = (Ok v, s1) ->
      exists e,
        entries (cache s1) !! key = Some e /\
        value e = v /\
        (uncached clock key s -> expiresAt e = clock (world s1) + ttl) /\
        forall (f' : M (State W) any) ttl' (s2 : State W),
          enabled (cache s2) = true ->
          entries (cache s2) !! key = Some e ->
          clock (world s2) < expiresAt e ->
          getOrFetch clock key f' ttl' false s2 =
          (Ok v, with_cache (Cache.count_hit (cache s2)) s2)) /\
  (forall options (s s1 : State W) v,
      enabled (cache s) = true ->
      cacheDisabled s = false ->
      uncached clock (getOrders_key options) s ->
      getOrders clock transport JSON_parse options s = (Ok v, s1) ->
      history s1 =
        history s ++ [ToolCalled "get-orders" (getOrders_args options)] /\
      forall s2 : State W,
        enabled (cache s2) = true ->
        cacheDisabled s2 = false ->
        entries (cache s2) !! getOrders_key options =
          entries (cache s1) !! getOrders_key options ->
        clock (world s2) < clock (world s1) + TTL.FIVE_MINUTES ->
        exists s3,
          getOrders clock transport JSON_parse options s2 = (Ok v, s3) /\
          history s3 = history s2 /\
          world s3 = world s2).
Proof.
  split.
  - intros key f ttl s s1 v Hen Hrun.
    destruct (getOrFetch_leaves_entry clock key f ttl s s1 v Hen Hrun)
      as (e & He & Hv & Hexp).
    exists e. repeat (split; [assumption|]).
    intros f' ttl' s2 Hen2 He2 Hfresh. rewrite <- Hv.
    apply getOrFetch_hit; assumption.
  - intros options s s1 v Hen Hoff Hun Hrun. unfold getOrders in Hrun.
    rewrite Hoff in Hrun.
    destruct (getOrFetch_leaves_entry clock _ _ _ s s1 v Hen Hrun)
      as (e & He & Hv & Hexp).
    specialize (Hexp Hun).
    split.
    { eapply getOrFetch_uncached_calls; eassumption. }
    intros s2 Hen2 Hoff2 Hsame Hlt.
    exists (with_cache (Cache.count_hit (cache s2)) s2).
    repeat split. unfold getOrders. rewrite Hoff2, <- Hv.
    apply getOrFetch_hit; [assumption|congruence|].
    rewrite Hexp. exact Hlt.
Qed.

Lemma getOrFetch_read_through_witness :
  let s := client_at 1000 Cache.create false in
  let first := getOrders (fun now : Z => now) (replying "[]") sample_parse
                 None s in
  let second := getOrders (fun now : Z => now) (replying "[]") sample_parse
                  None (with_world 1200 first.2) in
  first.1 = Ok (VArr []) /\
  history first.2 = [ToolCalled "get-orders" []] /\
  second.1 = Ok (VArr []) /\
  history second.2 = [ToolCalled "get-orders" []].
Proof.
  pose proof (proj2 (getOrFetch_read_through (fun now : Z => now)
                       (replying "[]") sample_parse)
                None (client_at 1000 Cache.create false)
                (getOrders (fun now : Z => now) (replying "[]") sample_parse
                   None (client_at 1000 Cache.create false)).2
                (VArr []) eq_refl eq_refl I eq_refl) as [Hh Hagain].
  destruct (Hagain
              (with_world 1200
                 (getOrders (fun now : Z => now) (replying "[]") sample_parse
                    None (client_at 1000 Cache.create false)).2)
              eq_refl eq_refl eq_refl eq_refl) as (s3 & Hrun & Hh3 & _).
  cbv zeta. rewrite Hrun. repeat split. exact Hh3.
Defined.

Lemma invalidatePattern_lookup pre c k :
  entries (Cache.invalidatePattern pre c).2 !! k =
  if String.prefix pre k then None else entries c !! k.
Proof.
  simpl. destruct (String.prefix pre k) eqn:Hp.
  - apply map_lookup_filter_None. right. intros x _.
    unfold Cache.survives. simpl. congruence.
  - apply option_eq. intros x. rewrite map_lookup_filter_Some.
    unfold Cache.survives. simpl. tauto.
Qed.

Lemma prefix_order_excludes k :
  String.prefix "product" k = true \/ String.prefix "customer" k = true ->
  String.prefix "order" k = false.
Proof.
  destruct k as [|c k]; [intros [H|H]; discriminate H|].
  intros H. destruct (ascii_dec "o" c) as [<-|Hne].
  - exfalso. destruct H as [H|H]; lazy in H; discriminate H.
  - cbn [String.prefix].
    destruct (ascii_dec "o" c); [contradiction | reflexivity].
Qed.

(** C9: invalidating ["order"] removes every entry whose key begins with
    ["order"] and leaves the entries whose key begins with ["product"] or
    ["customer"] as they were.  Hence, once [updateOrder] has succeeded, a
    [getOrFetch] on any key beginning with ["order"] runs its fetch
    function (and stores the result unless the cache is off), and
    [getOrderById] calls the [get-order-by-id] tool. *)
Theorem invalidatePattern_order_scope {W} (clock : W -> Z)
  (transport : string -> list (string * any) -> W -> (exn + ToolResult) * W)
  (JSON_parse : string -> option any) :
  (forall c k,
      String.prefix "order" k = true ->
      entries (Cache.invalidatePattern "order" c).2 !! k = None) /\
  (forall c k,
      String.prefix "product" k = true \/ String.prefix "customer" k = true ->
      entries (Cache.invalidatePattern "order" c).2 !! k = entries c !! k) /\
  (forall orderId updates (s s1 : State W) res,
      updateOrder transport JSON_parse orderId updates s = (Ok res, s1) ->
      (forall key (f : M (State W) any) ttl bypass,
          String.prefix "order" key = true ->
          getOrFetch clock key f ttl bypass s1 =
          match f s1 with
          | (Ok v, s') =>
              (Ok v,
               if bypass || negb (enabled (cache s1)) then s'
               else with_cache
                      (Cache.store key v (clock (world s')) ttl (cache s')) s')
          | (Throw e, s') => (Throw e, s')
          end) /\
      (forall id,
          history (getOrderById clock transport JSON_parse id s1).2 =
          history s1 ++ [ToolCalled "get-order-by-id" [("orderId", VStr id)]])).
Proof.
  split; [|split].
  - intros c k Hk. rewrite invalidatePattern_lookup, Hk. reflexivity.
  - intros c k Hk. rewrite invalidatePattern_lookup.
    rewrite (prefix_order_excludes k Hk). reflexivity.
  - intros orderId updates s s1 res Hrun.
    assert (Hgone : forall key, String.prefix "order" key = true ->
                                entries (cache s1) !! key = None).
    { intros key Hk.
      pose proof (mutation_contract transport JSON_parse "update-order"
                    (JS.assign [("id", VStr orderId)] updates) "order" s)
        as Hc.
      unfold updateOrder in Hrun.
      destruct (callTool transport JSON_parse "update-order" _ s)
        as [[res'|e] s'].
      - destruct Hc as [Hop _]. rewrite Hop in Hrun.
        injection Hrun as _ <-.
        change (entries (Cache.invalidatePattern "order" (cache s)).2 !! key
                = None).
        rewrite invalidatePattern_lookup, Hk. reflexivity.
      - destruct Hc as [Hop _]. rewrite Hop in Hrun. discriminate Hrun. }
    split.
    + intros key f ttl bypass Hk. apply getOrFetch_absent. auto.
    + intros id. unfold getOrderById.
      rewrite getOrFetch_absent by (apply Hgone, prefix_append).
      pose proof (callTool_frame transport JSON_parse "get-order-by-id"
                    [("orderId", VStr id)] s1) as (_ & _ & Hh).
      destruct (callTool transport JSON_parse "get-order-by-id" _ s1)
        as [[v|e] s']; simpl in *; [|exact Hh].
      destruct (cacheDisabled s1 || negb (enabled (cache s1))); exact Hh.
Qed.

(** On the sample deployment: the order entry is dropped, product and
    customer entries stay, and the next [getOrderById] goes to the
    server. *)
Lemma invalidatePattern_order_scope_witness :
  let s1 := (updateOrder (replying "[]") sample_parse "42" []
               (client_at 100 warm_cache false)).2 in
  entries (Cache.invalidatePattern "order" warm_cache).2 !! "order:id=42"
    = None /\
  entries (Cache.invalidatePattern "order" warm_cache).2 !! "product:id=7"
    = Some (entry (VStr "product 7") 0 3600) /\
  history (getOrderById (fun now : Z => now) (replying "[]") sample_parse
             "42" s1).2 =
    [ToolCalled "update-order" [("id", VStr "42")];
     PatternInvalidated "order";
     ToolCalled "get-order-by-id" [("orderId", VStr "42")]].
Proof.
  destruct (invalidatePattern_order_scope (fun now : Z => now)
              (replying "[]") sample_parse) as (Hgone & Hkept & Hafter).
  cbv zeta. split; [|split].
  - apply Hgone. reflexivity.
  - rewrite Hkept by (left; reflexivity). reflexivity.
  - destruct (Hafter "42" []
                (client_at 100 warm_cache false)
                (updateOrder (replying "[]") sample_parse "42" []
                   (client_at 100 warm_cache false)).2
                (VArr []) eq_refl) as [_ Hcall].
    rewrite Hcall. reflexivity.
Defined.

(** C6 fails on the code: when the [get-orders] tool answers the JSON
    text [null], [getOrders] resolves to [null] and [getAllOrders] throws
    a [TypeError] instead of treating the value as a single page. *)
Theorem getAllOrders_null_response_throws :
  (getAllOrders (fun now : Z => now) (replying "null") sample_parse
     10 None (client_at 0 Cache.create false)).1 =
  Throw (TypeError "Cannot read properties of null (reading 'orders')").
Proof. vm_compute. reflexivity. Qed.

(** ** Argument objects *)

Lemma lookup_set_field k k' v fs :
  JS.lookup_field k (JS.set_field k' v fs) =
  if String.eqb k k' then Some v else JS.lookup_field k fs.
Proof.
  induction fs as [|[k0 v0] fs IH]; simpl.
  - destruct (String.eqb k k'); reflexivity.
  - destruct (String.eqb k' k0) eqn:H0; simpl.
    + apply String.eqb_eq in H0 as <-.
      destruct (String.eqb k k'); reflexivity.
    + destruct (String.eqb k k0) eqn:Hk0.
      * apply String.eqb_eq in Hk0 as ->.
        rewrite String.eqb_sym, H0. reflexivity.
      * exact IH.
Qed.

Lemma lookup_set_if_truthy k k' v fs :
  JS.lookup_field k (set_if_truthy k' v fs) =
  if JS.truthy v && String.eqb k k' then Some v else JS.lookup_field k fs.
Proof.
  unfold set_if_truthy. destruct (JS.truthy v); simpl; [|reflexivity].
  apply lookup_set_field.
Qed.

Lemma lookup_field_notin k (fs : list (string * any)) :
  k ∉ map fst fs -> JS.lookup_field k fs = None.
Proof.
  induction fs as [|[k0 v0] fs IH]; simpl; intros Hnotin; [reflexivity|].
  apply not_elem_of_cons in Hnotin as [Hne Hnotin].
  apply String.eqb_neq in Hne. rewrite Hne. auto.
Qed.

(** Spreading a second object over a first: its bindings win, the others
    are kept. *)
Lemma lookup_assign k (b : list (string * any)) :
  NoDup (map fst b) ->
  forall a,
    JS.lookup_field k (JS.assign a b) =
    match JS.lookup_field k b with
    | Some v => Some v
    | None => JS.lookup_field k a
    end.
Proof.
  unfold JS.assign.
  induction b as [|[k0 v0] b IH]; simpl; intros Hnd a; [reflexivity|].
  apply NoDup_cons in Hnd as [Hnotin Hnd].
  rewrite (IH Hnd), lookup_set_field.
  destruct (String.eqb k k0) eqn:Hk.
  - apply String.eqb_eq in Hk as ->.
    rewrite (lookup_field_notin _ _ Hnotin). reflexivity.
  - reflexivity.
Qed.

(** Reading a property off the argument object of [getOrders]. *)
Lemma getOrders_args_lookup (options : option OrdersOptions) (name : string) :
  JS.lookup_field name (getOrders_args options) =
  if JS.truthy (orders_opt o_query options) && String.eqb name "query"
  then Some (orders_opt o_query options)
  else if JS.truthy (orders_opt o_after options) && String.eqb name "after"
  then Some (orders_opt o_after options)
  else if negb match orders_opt o_reverse options with
               | VUndefined => true
               | _ => false
               end && String.eqb name "reverse"
  then Some (orders_opt o_reverse options)
  else if JS.truthy (orders_opt o_sortKey options) && String.eqb name "sortKey"
  then Some (orders_opt o_sortKey options)
  else if JS.truthy (orders_opt o_limit options) && String.eqb name "first"
  then Some (orders_opt o_limit options)
  else if JS.truthy (orders_opt o_status options) && String.eqb name "status"
  then Some (orders_opt o_status options)
  else None.
Proof.
  unfold getOrders_args. cbv zeta.
  generalize (orders_opt o_status options) (orders_opt o_limit options)
    (orders_opt o_sortKey options) (orders_opt o_reverse options)
    (orders_opt o_after options) (orders_opt o_query options).
  intros status limit sortKey reverse after query.
  rewrite !lookup_set_if_truthy.
  destruct (JS.truthy query && String.eqb name "query"); [reflexivity|].
  destruct (JS.truthy after && String.eqb name "after"); [reflexivity|].
  destruct reverse; simpl;
    rewrite ?lookup_set_field, !lookup_set_if_truthy; reflexivity.
Qed.

(** X1: the argument object [getOrders] sends to the [get-orders] tool.
    The page size travels under the name [first], never under [limit];
    [status], [limit], [sortKey], [after] and [query] are sent exactly
    when they are truthy, so an empty string or a zero is dropped;
    [reverse] is sent whenever it is not [undefined], so [false] is
    sent. *)
Theorem getOrders_args_contents (options : option OrdersOptions) :
  let args := getOrders_args options in
  let gated (name : string) (v : any) :=
    JS.lookup_field name args = if JS.truthy v then Some v else None in
  JS.lookup_field "limit" args = None /\
  gated "first" (orders_opt o_limit options) /\
  gated "status" (orders_opt o_status options) /\
  gated "sortKey" (orders_opt o_sortKey options) /\
  gated "after" (orders_opt o_after options) /\
  gated "query" (orders_opt o_query options) /\
  JS.lookup_field "reverse" args =
    match orders_opt o_reverse options with
    | VUndefined => None
    | v => Some v
    end /\
  (orders_opt o_reverse options = VBool false ->
   JS.lookup_field "reverse" args = Some (VBool false)) /\
  (forall name v,
      JS.lookup_field name args = Some v ->
      name <> "reverse" -> JS.truthy v = true).
Proof.
  cbv zeta. rewrite !getOrders_args_lookup. simpl.
  rewrite !andb_false_r, !andb_true_r.
  repeat split;
    try solve [ reflexivity
              | destruct (orders_opt o_reverse options); reflexivity
              | intros ->; reflexivity
              | match goal with
                | |- context [JS.truthy ?x] =>
                    destruct (JS.truthy x); reflexivity
                end ].
  intros name v Hv Hname. rewrite getOrders_args_lookup in Hv.
  apply String.eqb_neq in Hname. rewrite Hname, andb_false_r in Hv.
  repeat match type of Hv with
         | context [JS.truthy ?x && _] =>
             destruct (JS.truthy x) eqn:?; simpl in Hv
         | context [String.eqb name ?k] =>
             destruct (String.eqb name k); simpl in Hv
         end; try discriminate Hv; injection Hv as <-; assumption.
Qed.

(** X2: every request [getAllOrders] makes asks the tool for 250 orders
    and carries an explicit, non-null [reverse] flag, [true] unless the
    caller gave one; it carries [after] exactly when the cursor is truthy
    (never on the first request) and sorts by [CREATED_AT] when the caller
    gave no sort key. *)
Theorem getAllOrders_request_contents
  (options : option AllOrdersOptions) (c : any) :
  let args := getOrders_args (Some (page_request options c)) in
  let reverse := JS.coalesce (opt_of a_reverse options) (VBool true) in
  JS.lookup_field "first" args = Some (VNum 250) /\
  JS.lookup_field "reverse" args = Some reverse /\
  JS.nullish reverse = false /\
  (JS.nullish (opt_of a_reverse options) = true -> reverse = VBool true) /\
  JS.lookup_field "after" args = (if JS.truthy c then Some c else None) /\
  JS.lookup_field "after"
    (getOrders_args (Some (page_request options VUndefined))) = None /\
  (JS.nullish (opt_of a_sortKey options) = true ->
   JS.lookup_field "sortKey" args = Some (VStr "CREATED_AT")).
Proof.
  cbv zeta. rewrite !getOrders_args_lookup. simpl.
  rewrite !andb_false_r, !andb_true_r.
  unfold JS.coalesce.
  repeat split;
    try solve [ reflexivity
              | destruct (JS.truthy c); reflexivity
              | destruct (opt_of a_reverse options); reflexivity
              | intros Hn; rewrite Hn; reflexivity ].
Qed.

(** ** More on the pagination loop *)

Lemma absorb_extends res st st' :
  absorb res st = inr st' ->
  exists items, allOrders st' = allOrders st ++ items.
Proof.
  unfold absorb. intros H.
  destruct res; simpl in H;
    repeat match type of H with
           | inl _ = inr _ => discriminate H
           | inr _ = inr _ => injection H as <-; simpl; eauto
           | context [if ?b then _ else _] => destruct b
           | context [match ?x with _ => _ end] => destruct x
           end.
Qed.

Lemma loop_extends {T} (getOrders : OrdersOptions -> M T any) options fuel :
  forall st s stf s',
    getAllOrders_loop getOrders options fuel st s = (Ok (Some stf), s') ->
    exists rest, allOrders stf = allOrders st ++ rest.
Proof.
  induction fuel as [|fuel IH]; intros st s stf s' Hrun.
  - simpl in Hrun. destruct (continues (maxPages_of options) st);
      [discriminate Hrun|]. injection Hrun as <- <-.
    exists []. rewrite app_nil_r. reflexivity.
  - destruct (continues (maxPages_of options) st) eqn:Hc.
    + rewrite loop_unfold in Hrun by assumption.
      destruct (getOrders _ s) as [[res|e] s1]; [|discriminate Hrun].
      destruct (absorb res st) as [e|st1] eqn:Ha; [discriminate Hrun|].
      destruct (absorb_extends _ _ _ Ha) as [items Hitems].
      destruct (IH _ _ _ _ Hrun) as [rest Hrest].
      exists (items ++ rest). rewrite Hrest, Hitems, app_assoc. reflexivity.
    + rewrite loop_stop in Hrun by assumption. injection Hrun as <- <-.
      exists []. rewrite app_nil_r. reflexivity.
Qed.

(** X3: the accumulator only grows at its end.  Whatever the pages look
    like, the orders held in any state the loop passes through are an
    initial segment of the orders finally returned, and [totalFetched] is
    the number of orders returned. *)
Theorem getAllOrders_keeps_accumulated {T}
  (getOrders : OrdersOptions -> M T any)
  (options : option AllOrdersOptions)
  (s0 : T) (st : LoopState) (s : T) (fuel : nat) (r : AllOrders) (s' : T) :
  reaches getOrders options s0 st s ->
  getAllOrders_with getOrders options fuel s0 = (Ok (Some r), s') ->
  (exists rest, orders r = allOrders st ++ rest) /\
  totalFetched r = Z.of_nat (length (orders r)).
Proof.
  intros Hreach Hrun. rewrite getAllOrders_with_loop in Hrun.
  destruct (getAllOrders_loop _ _ fuel _ _) as [[[stf|]|e] sf] eqn:Hloop;
    simpl in Hrun; try discriminate Hrun.
  injection Hrun as <- <-. split; [|reflexivity].
  pose proof (loop_fuel_mono getOrders options fuel _ _ _ _ Hloop
                ltac:(discriminate)
                (Z.to_nat (pageCount st) + fuel)%nat ltac:(lia))
    as Hbig.
  rewrite (loop_follows _ _ _ _ _ Hreach) in Hbig.
  apply loop_extends in Hbig. exact Hbig.
Qed.

Lemma getAllOrders_keeps_accumulated_witness :
  exists rest,
    [VStr "#1001"; VStr "#1002"; VStr "#1003"] =
    [VStr "#1001"; VStr "#1002"] ++ rest.
Proof.
  exact (proj1 (getAllOrders_keeps_accumulated two_pages (with_maxPages 5)
                  0%nat
                  {| allOrders := [VStr "#1001"; VStr "#1002"];
                     cursor := VStr "c1"; hasNextPage := VBool true;
                     pageCount := 1 |}
                  1%nat 5
                  {| orders := [VStr "#1001"; VStr "#1002"; VStr "#1003"];
                     totalFetched := 3; hasMore := VBool false |}
                  2%nat
                  (reaches_next two_pages (with_maxPages 5) 0%nat
                     loop_init 0%nat _ 1%nat _
                     (reaches_init _ _ _) eq_refl eq_refl eq_refl)
                  eq_refl)).
Defined.

Lemma continues_true m items c pc :
  below pc m = true ->
  continues m {| allOrders := items; cursor := c;
                 hasNextPage := VBool true; pageCount := pc |} = true.
Proof. intros H. unfold continues. simpl. exact H. Qed.

Lemma page_limit_None m c : page_limit m = None -> below c m = true.
Proof. destruct m; simpl; intros H; try discriminate H; reflexivity. Qed.

Lemma loop_always_next {T} (getOrders : OrdersOptions -> M T any) options L :
  (forall o s, exists items c s',
      getOrders o s = (Ok (page items true c), s')) ->
  page_limit (maxPages_of options) = Some L ->
  forall m items c pc s n fuel,
    0 <= pc ->
    Z.to_nat (L - pc) = m ->
    (m <= fuel)%nat ->
    exists stf s',
      getAllOrders_loop (counted getOrders) options fuel
        {| allOrders := items; cursor := c;
           hasNextPage := VBool true; pageCount := pc |} (s, n)
        = (Ok (Some stf), (s', (n + m)%nat)) /\
      hasNextPage stf = VBool true.
Proof.
  intros Halways HL. induction m as [|m IH];
    intros items c pc s n fuel Hpc Hm Hfuel.
  - exists {| allOrders := items; cursor := c;
              hasNextPage := VBool true; pageCount := pc |}, s.
    rewrite loop_stop, Nat.add_0_r; [auto|].
    unfold continues. simpl. rewrite (below_page_limit _ _ _ HL Hpc).
    apply Z.ltb_ge. lia.
  - destruct fuel as [|fuel]; [lia|].
    rewrite loop_unfold
      by (apply continues_true; rewrite (below_page_limit _ _ _ HL Hpc);
          apply Z.ltb_lt; lia).
    destruct (Halways (page_request options c) s) as (i1 & c1 & s1 & Hf).
    unfold counted at 1. cbn [fst snd cursor]. rewrite Hf.
    rewrite absorb_page. cbn [allOrders pageCount].
    destruct (IH (items ++ i1) c1 (pc + 1) s1 (S n) fuel ltac:(lia)
                ltac:(lia) ltac:(lia)) as (stf & s' & Hrun & Hnext).
    exists stf, s'. rewrite Hrun. split; [|exact Hnext].
    rewrite Nat.add_succ_r. reflexivity.
Qed.

Lemma loop_always_forever {T} (getOrders : OrdersOptions -> M T any) options :
  (forall o s, exists items c s',
      getOrders o s = (Ok (page items true c), s')) ->
  page_limit (maxPages_of options) = None ->
  forall fuel items c pc s n,
    exists s',
      getAllOrders_loop (counted getOrders) options fuel
        {| allOrders := items; cursor := c;
           hasNextPage := VBool true; pageCount := pc |} (s, n)
        = (Ok None, (s', (n + fuel)%nat)).
Proof.
  intros Halways HL. induction fuel as [|fuel IH]; intros items c pc s n.
  - exists s. simpl. unfold continues. simpl.
    rewrite (page_limit_None _ _ HL), Nat.add_0_r. reflexivity.
  - rewrite loop_unfold
      by (apply continues_true, page_limit_None; exact HL).
    destruct (Halways (page_request options c) s) as (i1 & c1 & s1 & Hf).
    unfold counted at 1. cbn [fst snd cursor]. rewrite Hf.
    rewrite absorb_page. cbn [allOrders pageCount].
    destruct (IH (items ++ i1) c1 (pc + 1) s1 (S n)) as (s' & Hrun).
    exists s'. rewrite Hrun, Nat.add_succ_r. reflexivity.
Qed.

(** X4: against a source whose pages always announce a further page the
    bound is reached exactly.  With a finite [maxPages] the fetcher is
    called as many times as the least whole number [L] that is not below
    [maxPages] (and not below zero), and [hasMore] is [true]: [maxPages]
    times for a whole number, three times for 2.5, not at all when
    [maxPages] is zero or negative ([L] being within the range in which
    the counter is exact).  With an infinite [maxPages] the run never
    ends: every unit of fuel is spent on a fetch. *)
Theorem getAllOrders_fetches_exactly_maxPages {T}
  (getOrders : OrdersOptions -> M T any)
  (options : option AllOrdersOptions) (s : T) (n : nat) :
  (forall o s, exists items c s',
      getOrders o s = (Ok (page items true c), s')) ->
  (forall L fuel,
      page_limit (maxPages_of options) = Some L ->
      L <= exact_count_limit ->
      (Z.to_nat L <= fuel)%nat ->
      exists r s',
        getAllOrders_with (counted getOrders) options fuel (s, n) =
        (Ok (Some r), (s', (n + Z.to_nat L)%nat)) /\
        hasMore r = VBool true) /\
  (page_limit (maxPages_of options) = None ->
   forall fuel,
     exists s',
       getAllOrders_with (counted getOrders) options fuel (s, n) =
       (Ok None, (s', (n + fuel)%nat))) /\
  (forall z,
      maxPages_of options = Int z ->
      page_limit (maxPages_of options) = Some z).
Proof.
  intros Halways. split; [|split].
  - intros L fuel HL _ Hfuel.
    destruct (loop_always_next getOrders options L Halways HL
                (Z.to_nat L) [] VUndefined 0 s n fuel ltac:(lia)
                ltac:(rewrite Z.sub_0_r; reflexivity) Hfuel)
      as (stf & s' & Hrun & Hnext).
    exists (finish stf), s'. rewrite getAllOrders_with_loop.
    change loop_init with {| allOrders := []; cursor := VUndefined;
                             hasNextPage := VBool true; pageCount := 0 |}.
    rewrite Hrun. split; [reflexivity | exact Hnext].
  - intros HL fuel.
    destruct (loop_always_forever getOrders options Halways HL
                fuel [] VUndefined 0 s n) as (s' & Hrun).
    exists s'. rewrite getAllOrders_with_loop.
    change loop_init with {| allOrders := []; cursor := VUndefined;
                             hasNextPage := VBool true; pageCount := 0 |}.
    rewrite Hrun. reflexivity.
  - intros z ->. apply page_limit_Int.
Qed.

Lemma getAllOrders_fetches_exactly_maxPages_witness :
  (exists r s',
      getAllOrders_with (counted endless)
        (with_maxPages_number (Ratio 5 2)) 12 (0%nat, 0%nat) =
      (Ok (Some r), (s', 3%nat)) /\
      hasMore r = VBool true) /\
  (forall fuel,
      exists s',
        getAllOrders_with (counted endless)
          (with_maxPages_number Infinity) fuel (0%nat, 0%nat) =
        (Ok None, (s', fuel))).
Proof.
  split.
  - apply (proj1 (getAllOrders_fetches_exactly_maxPages endless
                    (with_maxPages_number (Ratio 5 2)) 0%nat 0%nat
                    (fun o s => ex_intro _ _ (ex_intro _ _
                                  (ex_intro _ _ eq_refl)))) 3 12%nat eq_refl).
    + vm_compute; discriminate.
    + vm_compute. repeat constructor.
  - apply (proj1 (proj2 (getAllOrders_fetches_exactly_maxPages endless
                           (with_maxPages_number Infinity) 0%nat 0%nat
                           (fun o s => ex_intro _ _ (ex_intro _ _
                                         (ex_intro _ _ eq_refl))))) eq_refl).
Defined.





Lemma loop_one_page {T} (getOrders : OrdersOptions -> M T any) options
  res st1 s0 s1 fuel :
  below 0 (maxPages_of options) = true ->
  getOrders (page_request options VUndefined) s0 = (Ok res, s1) ->
  absorb res loop_init = inr st1 ->
  continues (maxPages_of options) st1 = false ->
  getAllOrders_with getOrders options (S fuel) s0 =
  (Ok (Some (finish st1)), s1).
Proof.
  intros Hmax Hf Ha Hstop. rewrite getAllOrders_with_loop.
  rewrite loop_unfold
    by (unfold continues; simpl; exact Hmax).
  cbn [cursor loop_init]. rewrite Hf, Ha, loop_stop by assumption.
  reflexivity.
Qed.

(** X6: the two fall-back shapes of a first response.  A bare array is
    taken as the only page: its elements are the orders and [hasMore] is
    [false].  A value that is neither an array nor [null]/[undefined] and
    has no truthy [orders] property (a string, a number, an object of
    another shape) is returned as the single order, with [hasMore]
    [false].  In both cases nothing more is fetched. *)
Theorem getAllOrders_single_page {T}
  (getOrders : OrdersOptions -> M T any)
  (options : option AllOrdersOptions)
  (res : any) (s0 s1 : T) (fuel : nat) :
  below 0 (maxPages_of options) = true ->
  (0 < fuel)%nat ->
  getOrders (page_request options VUndefined) s0 = (Ok res, s1) ->
  (forall items,
      res = VArr items ->
      getAllOrders_with getOrders options fuel s0 =
      (Ok (Some {| orders := items;
                   totalFetched := Z.of_nat (length items);
                   hasMore := VBool false |}), s1)) /\
  (JS.nullish res = false ->
   (forall items, res <> VArr items) ->
   JS.truthy (JS.get_prop res "orders") = false ->
   getAllOrders_with getOrders options fuel s0 =
   (Ok (Some {| orders := [res]; totalFetched := 1;
                hasMore := VBool false |}), s1)).
Proof.
  intros Hmax Hfuel Hf. destruct fuel as [|fuel]; [lia|]. split.
  - intros items ->.
    apply (loop_one_page getOrders options (VArr items)
             {| allOrders := items; cursor := VUndefined;
                hasNextPage := VBool false; pageCount := 1 |}
             s0 s1 fuel Hmax Hf); reflexivity.
  - intros Hnn Hnarr Hfalsy.
    apply (loop_one_page getOrders options res
             {| allOrders := [res]; cursor := VUndefined;
                hasNextPage := VBool false; pageCount := 1 |}
             s0 s1 fuel Hmax Hf); [|reflexivity].
    unfold absorb, JS.member.
    destruct res; try discriminate Hnn;
      try (exfalso; eapply Hnarr; reflexivity);
      rewrite ?Hfalsy; reflexivity.
Qed.

Lemma getAllOrders_single_page_witness :
  getAllOrders_with (fun _ n => (Ok (VStr "No orders found"), S n))
    None 1 0%nat =
  (Ok (Some {| orders := [VStr "No orders found"]; totalFetched := 1;
               hasMore := VBool false |}), 1%nat).
Proof.
  refine (proj2 (getAllOrders_single_page
                   (fun _ n => (Ok (VStr "No orders found"), S n))
                   None (VStr "No orders found") 0%nat 1%nat 1
                   eq_refl _ eq_refl) eq_refl _ eq_refl).
  - repeat constructor.
  - intros items H. discriminate H.
Defined.

(** X7: [hasMore] is the [hasNextPage] value of the last page as the
    server sent it, [false] standing in only when [pageInfo] or the flag
    is missing or [null]; it is not coerced to a boolean.  The last page
    may be the first or any later one: it is fetched from a state [st]
    the loop passes through, it has an [orders] array, and the loop stops
    after it because the flag is falsy or because the page count is no
    longer below [maxPages].  The orders returned are those accumulated
    in [st] followed by the page's. *)
Theorem getAllOrders_hasMore_passes_through {T}
  (getOrders : OrdersOptions -> M T any)
  (options : option AllOrdersOptions)
  (s0 : T) (st : LoopState) (s : T)
  (fs : list (string * any)) (items : list any)
  (s1 : T) (fuel : nat) :
  let flag :=
    JS.coalesce
      (JS.opt_member (JS.get_prop (VObj fs) "pageInfo") "hasNextPage")
      (VBool false) in
  reaches getOrders options s0 st s ->
  continues (maxPages_of options) st = true ->
  (Z.to_nat (pageCount st) < fuel)%nat ->
  getOrders (page_request options (cursor st)) s = (Ok (VObj fs), s1) ->
  JS.lookup_field "orders" fs = Some (VArr items) ->
  JS.truthy flag = false \/
  below (pageCount st + 1) (maxPages_of options) = false ->
  getAllOrders_with getOrders options fuel s0 =
  (Ok (Some {| orders := allOrders st ++ items;
               totalFetched := Z.of_nat (length (allOrders st ++ items));
               hasMore := flag |}), s1).
Proof.
  intros flag Hreach Hc Hfuel Hf Hord Hstop.
  assert (Ha : absorb (VObj fs) st =
               inr {| allOrders := allOrders st ++ items;
                      cursor := JS.opt_member
                                  (JS.get_prop (VObj fs) "pageInfo")
                                  "endCursor";
                      hasNextPage := flag;
                      pageCount := pageCount st + 1 |}).
  { unfold absorb, JS.member. simpl. rewrite Hord. reflexivity. }
  replace fuel
    with (Z.to_nat (pageCount st) + S (fuel - S (Z.to_nat (pageCount st))))%nat
    by lia.
  rewrite getAllOrders_with_loop, (loop_follows _ _ _ _ _ Hreach).
  rewrite loop_unfold by assumption.
  rewrite Hf, Ha, loop_stop; [reflexivity|].
  unfold continues. cbn [hasNextPage pageCount].
  destruct Hstop as [-> | ->]; [reflexivity|].
  apply andb_false_r.
Qed.

Lemma getAllOrders_hasMore_passes_through_witness :
  getAllOrders_with text_flag_second (with_maxPages 2) 2 0%nat =
  (Ok (Some {| orders := [VStr "#1001"; VStr "#1002"]; totalFetched := 2;
               hasMore := VStr "yes" |}), 2%nat).
Proof.
  apply (getAllOrders_hasMore_passes_through
           text_flag_second (with_maxPages 2) 0%nat
           {| allOrders := [VStr "#1001"]; cursor := VStr "c1";
              hasNextPage := VBool true; pageCount := 1 |}
           1%nat
           [("orders", VArr [VStr "#1002"]);
            ("pageInfo", VObj [("hasNextPage", VStr "yes")])]
           [VStr "#1002"] 2%nat 2).
  - eapply (reaches_next text_flag_second (with_maxPages 2) 0%nat
              loop_init 0%nat);
      [apply reaches_init | reflexivity | reflexivity | reflexivity].
  - reflexivity.
  - vm_compute. repeat constructor.
  - reflexivity.
  - reflexivity.
  - right. reflexivity.
Defined.

(** ** Tool calls *)

Lemma find_text_first pre item post :
  (forall i, In i pre -> c_type i <> "text") ->
  c_type item = "text" ->
  find_text (pre ++ item :: post) = Some item.
Proof.
  intros Hpre Hitem. unfold find_text.
  induction pre as [|i pre IH]; simpl.
  - rewrite Hitem. reflexivity.
  - destruct (String.eqb (c_type i) "text") eqn:Hi.
    + apply String.eqb_eq in Hi. exfalso.
      apply (Hpre i); [left; reflexivity | exact Hi].
    + apply IH. intros i' Hin. apply Hpre. right. exact Hin.
Qed.

Lemma find_text_none c :
  (forall i, In i c -> c_type i <> "text") -> find_text c = None.
Proof.
  intros Hc. unfold find_text.
  destruct (List.find _ c) as [i|] eqn:Hfind; [|reflexivity].
  apply find_some in Hfind as [Hin Hty]. apply String.eqb_eq in Hty.
  exfalso. exact (Hc i Hin Hty).
Qed.

(** X8: when the server flags its reply as an error, [callTool] throws an
    [Error] and never returns a value.  The message is the text of the
    first item of type [text] in the reply when that text is present and
    not empty, whatever items come before or after it; it is ["Tool call
    failed"] when that first item has no text or an empty one, and when
    the reply has no item of type [text]; so it is never the empty
    string.  The reply text is not parsed. *)
Theorem callTool_error_reply {W}
  (transport : string -> list (string * any) -> W -> (exn + ToolResult) * W)
  (JSON_parse : string -> option any)
  (name : string) (args : list (string * any)) (s : State W)
  (r : ToolResult) (w : W) :
  transport name args (world s) = (inr r, w) ->
  isError r = true ->
  exists message,
    callTool transport JSON_parse name args s =
    (Throw (Error message),
     with_world w (record_event (ToolCalled name args) s)) /\
    message <> "" /\
    (forall pre item post t,
        content r = pre ++ item :: post ->
        (forall i, In i pre -> c_type i <> "text") ->
        c_type item = "text" ->
        c_text item = Some t ->
        t <> "" ->
        message = t) /\
    (forall pre item post,
        content r = pre ++ item :: post ->
        (forall i, In i pre -> c_type i <> "text") ->
        c_type item = "text" ->
        c_text item = None \/ c_text item = Some "" ->
        message = "Tool call failed") /\
    ((forall i, In i (content r) -> c_type i <> "text") ->
     message = "Tool call failed").
Proof.
  intros Ht Herr. unfold callTool. cbn [world record_event].
  rewrite Ht, Herr. cbv zeta.
  eexists. split; [reflexivity|]. split; [|split; [|split]].
  - destruct (find_text (content r) ≫= c_text) as [t|]; [|discriminate].
    destruct (String.eqb t "") eqn:Hempty; [discriminate|].
    apply String.eqb_neq. exact Hempty.
  - intros pre item post t Hcontent Hpre Hitem Htext Hne.
    rewrite Hcontent, (find_text_first _ _ _ Hpre Hitem). simpl.
    rewrite Htext. apply String.eqb_neq in Hne. rewrite Hne. reflexivity.
  - intros pre item post Hcontent Hpre Hitem Htext.
    rewrite Hcontent, (find_text_first _ _ _ Hpre Hitem). simpl.
    destruct Htext as [-> | ->]; reflexivity.
  - intros Hnone. rewrite (find_text_none _ Hnone). reflexivity.
Qed.

Lemma callTool_error_reply_witness :
  callTool
    (rejecting_with
       [{| c_type := "image"; c_text := None |};
        {| c_type := "text"; c_text := Some "Order not found" |};
        {| c_type := "text"; c_text := Some "Try again" |}])
    sample_parse "get-order-by-id" [] (client_at 7 Cache.create false)
  = (Throw (Error "Order not found"),
     with_world 8
       (record_event (ToolCalled "get-order-by-id" [])
          (client_at 7 Cache.create false))).
Proof.
  destruct (callTool_error_reply
              (rejecting_with
                 [{| c_type := "image"; c_text := None |};
                  {| c_type := "text"; c_text := Some "Order not found" |};
                  {| c_type := "text"; c_text := Some "Try again" |}])
              sample_parse "get-order-by-id" []
              (client_at 7 Cache.create false)
              {| isError := true;
                 content :=
                   [{| c_type := "image"; c_text := None |};
                    {| c_type := "text"; c_text := Some "Order not found" |};
                    {| c_type := "text"; c_text := Some "Try again" |}] |}
              8 eq_refl eq_refl) as (m & Hrun & _ & Htext & _).
  rewrite Hrun.
  rewrite (Htext [{| c_type := "image"; c_text := None |}]
             {| c_type := "text"; c_text := Some "Order not found" |}
             [{| c_type := "text"; c_text := Some "Try again" |}]
             "Order not found" eq_refl);
    [reflexivity | | reflexivity | reflexivity | discriminate].
  intros i [<- | []]. discriminate.
Defined.

(** X9: a reply that is not flagged as an error never makes [callTool]
    throw.  The non-empty text of its first [text] item is parsed as
    JSON; when it does not parse, the text itself is returned as a
    string; when there is no such text, the content items are returned as
    an array, one element per item. *)
Theorem callTool_plain_reply {W}
  (transport : string -> list (string * any) -> W -> (exn + ToolResult) * W)
  (JSON_parse : string -> option any)
  (name : string) (args : list (string * any)) (s : State W)
  (r : ToolResult) (w : W) :
  transport name args (world s) = (inr r, w) ->
  isError r = false ->
  exists v,
    callTool transport JSON_parse name args s =
    (Ok v, with_world w (record_event (ToolCalled name args) s)) /\
    (forall item t,
        find_text (content r) = Some item ->
        c_text item = Some t -> t <> "" ->
        (JSON_parse t = None -> v = VStr t) /\
        (forall parsed, JSON_parse t = Some parsed -> v = parsed)) /\
    ((forall item, find_text (content r) = Some item ->
                   c_text item = None \/ c_text item = Some "") ->
     exists elements,
       v = VArr elements /\ length elements = length (content r)).
Proof.
  intros Ht Hok. unfold callTool. cbn [world record_event].
  rewrite Ht, Hok.
  assert (Hlen : length (match content_value (content r) with
                         | VArr xs => xs
                         | _ => []
                         end) = length (content r))
    by (simpl; apply length_map).
  destruct (find_text (content r)) as [item|] eqn:Hfind; simpl;
    [destruct (c_text item) as [t|] eqn:Htext; simpl;
     [destruct (String.eqb t "") eqn:Hempty;
      [apply String.eqb_eq in Hempty; subst t
      |apply String.eqb_neq in Hempty;
       destruct (JSON_parse t) as [parsed|] eqn:Hparse]|]|];
    (eexists; split; [reflexivity|]; split;
     [ intros item' t' Hi Ht' Hne; try discriminate Hi;
       injection Hi as <-; rewrite Htext in Ht'; try discriminate Ht';
       injection Ht' as <-; split; intros; congruence
     | intros Hall;
       first [ destruct (Hall item eq_refl); congruence
             | eexists; split; [reflexivity | exact Hlen] ] ]).
Qed.

Lemma callTool_plain_reply_witness :
  (callTool (replying "Rate limited, retry later") sample_parse
     "get-orders" [] (client_at 7 Cache.create false)).1 =
  Ok (VStr "Rate limited, retry later").
Proof.
  destruct (callTool_plain_reply (replying "Rate limited, retry later")
              sample_parse "get-orders" []
              (client_at 7 Cache.create false)
              (reply_text "Rate limited, retry later") 8
              eq_refl eq_refl) as (v & Hrun & Htext & _).
  rewrite Hrun.
  destruct (Htext {| c_type := "text";
                     c_text := Some "Rate limited, retry later" |}
              "Rate limited, retry later" eq_refl eq_refl
              ltac:(discriminate)) as [Hraw _].
  rewrite (Hraw eq_refl). reflexivity.
Defined.

(** ** Mutation arguments *)

Lemma mutation_history {W}
  (transport : string -> list (string * any) -> W -> (exn + ToolResult) * W)
  (JSON_parse : string -> option any) tool args pre (s : State W) :
  exists rest,
    history ((let* res := callTool transport JSON_parse tool args in
              let* _ := invalidatePattern pre in
              ret res) s).2 =
    history s ++ ToolCalled tool args :: rest.
Proof.
  pose proof (mutation_contract transport JSON_parse tool args pre s) as Hc.
  destruct (callTool transport JSON_parse tool args s) as [[res|e] s1].
  - destruct Hc as [-> Hh]. simpl. rewrite Hh, <- app_assoc. eauto.
  - destruct Hc as (-> & _ & Hh). simpl. rewrite Hh. eauto.
Qed.

(** X10: the identifier a mutation sends.  [updateOrder] and
    [updateCustomer] call their tool with the properties of [updates]
    and an [id]; the [id] is the identifier passed as first argument
    unless [updates] has an [id] property of its own, which then replaces
    it.  Every other property is sent as [updates] has it. *)
Theorem mutation_id_can_be_overridden {W}
  (transport : string -> list (string * any) -> W -> (exn + ToolResult) * W)
  (JSON_parse : string -> option any)
  (id : string) (updates : list (string * any)) (s : State W) :
  NoDup (map fst updates) ->
  let sent (tool : string) (after : State W) :=
    exists args rest,
      history after = history s ++ ToolCalled tool args :: rest /\
      JS.lookup_field "id" args =
        Some (default (VStr id) (JS.lookup_field "id" updates)) /\
      (forall k, k <> "id" ->
                 JS.lookup_field k args = JS.lookup_field k updates) in
  sent "update-order" (updateOrder transport JSON_parse id updates s).2 /\
  sent "update-customer" (updateCustomer transport JSON_parse id updates s).2.
Proof.
  intros Hnd sent.
  assert (Hargs :
            JS.lookup_field "id" (JS.assign [("id", VStr id)] updates) =
              Some (default (VStr id) (JS.lookup_field "id" updates)) /\
            (forall k, k <> "id" ->
                       JS.lookup_field k (JS.assign [("id", VStr id)] updates)
                       = JS.lookup_field k updates)).
  { split.
    - rewrite lookup_assign by assumption.
      destruct (JS.lookup_field "id" updates); reflexivity.
    - intros k Hk. rewrite lookup_assign by assumption.
      destruct (JS.lookup_field k updates); [reflexivity|].
      simpl. apply String.eqb_neq in Hk. rewrite Hk. reflexivity. }
  split.
  - destruct (mutation_history transport JSON_parse "update-order"
                (JS.assign [("id", VStr id)] updates) "order" s)
      as [rest Hh].
    exists (JS.assign [("id", VStr id)] updates), rest.
    split; [exact Hh | exact Hargs].
  - destruct (mutation_history transport JSON_parse "update-customer"
                (JS.assign [("id", VStr id)] updates) "customer" s)
      as [rest Hh].
    exists (JS.assign [("id", VStr id)] updates), rest.
    split; [exact Hh | exact Hargs].
Qed.

Lemma mutation_id_can_be_overridden_witness :
  exists args rest,
    history (updateOrder (replying "[]") sample_parse "gid://shopify/Order/1"
               [("note", VStr "gift"); ("id", VStr "gid://shopify/Order/2")]
               (client_at 0 Cache.create false)).2 =
      [] ++ ToolCalled "update-order" args :: rest /\
    JS.lookup_field "id" args = Some (VStr "gid://shopify/Order/2") /\
    (forall k, k <> "id" ->
               JS.lookup_field k args =
               JS.lookup_field k
                 [("note", VStr "gift"); ("id", VStr "gid://shopify/Order/2")]).
Proof.
  refine (proj1 (mutation_id_can_be_overridden (replying "[]") sample_parse
                   "gid://shopify/Order/1"
                   [("note", VStr "gift");
                    ("id", VStr "gid://shopify/Order/2")]
                   (client_at 0 Cache.create false) _)).
  apply NoDup_ListNoDup. repeat constructor; simpl; intuition discriminate.
Defined.


(** ** The command line *)

Lemma append_empty_r (s : string) : s +:+ "" = s.
Proof.
  induction s as [|c s IH]; [reflexivity|].
  change (String c (s +:+ "") = String c s). f_equal. exact IH.
Qed.

Lemma strip_prefix_append p s : Cli.strip_prefix p (p +:+ s) = Some s.
Proof.
  induction p as [|c p IH]; simpl; [reflexivity|].
  rewrite Ascii.eqb_refl. exact IH.
Qed.

Lemma take_digits_all d : Cli.all_digits d = true -> Cli.take_digits d = d.
Proof.
  induction d as [|c d IH]; simpl; [reflexivity|].
  intros [Hc Hd]%andb_true_iff. rewrite Hc, IH by assumption. reflexivity.
Qed.

Lemma take_digits_then d rest :
  Cli.all_digits d = true ->
  match rest with
  | EmptyString => True
  | String c _ => Cli.is_digit c = false
  end ->
  Cli.take_digits (d +:+ rest) = d.
Proof.
  intros Hd Hrest. induction d as [|c d IH]; simpl.
  - destruct rest as [|c rest]; simpl; [reflexivity|].
    rewrite Hrest. reflexivity.
  - simpl in Hd. apply andb_true_iff in Hd as [Hc Hd].
    rewrite Hc, IH by assumption. reflexivity.
Qed.

Lemma take_digits_digits s : Cli.all_digits (Cli.take_digits s) = true.
Proof.
  induction s as [|c s IH]; simpl; [reflexivity|].
  destruct (Cli.is_digit c) eqn:Hc; simpl; [|reflexivity].
  rewrite Hc, IH. reflexivity.
Qed.

Lemma match_customer_gid_step c rest :
  Cli.match_customer_gid (String c rest) =
  match Cli.strip_prefix Cli.customer_gid (String c rest) with
  | Some tail =>
      match Cli.take_digits tail with
      | EmptyString => Cli.match_customer_gid rest
      | digits => Some digits
      end
  | None => Cli.match_customer_gid rest
  end.
Proof. reflexivity. Qed.

Lemma match_customer_gid_digits s d :
  Cli.match_customer_gid s = Some d ->
  Cli.all_digits d = true /\ d <> "".
Proof.
  induction s as [|c s IH]; [discriminate|].
  rewrite match_customer_gid_step.
  destruct (Cli.strip_prefix Cli.customer_gid (String c s)) as [tail|];
    [|exact IH].
  pose proof (take_digits_digits tail) as Hdig.
  destruct (Cli.take_digits tail) as [|c' t'] eqn:Ht; [exact IH|].
  intros [= <-]. split; [exact Hdig | discriminate].
Qed.

Lemma match_customer_gid_of_digits s :
  Cli.all_digits s = true -> Cli.match_customer_gid s = None.
Proof.
  induction s as [|c s IH]; [reflexivity|].
  intros [Hc Hs]%andb_true_iff. rewrite match_customer_gid_step.
  assert (Hno : Cli.strip_prefix Cli.customer_gid (String c s) = None).
  { unfold Cli.customer_gid. cbn [Cli.strip_prefix].
    destruct (Ascii.eqb "g" c) eqn:Hg; [|reflexivity].
    apply Ascii.eqb_eq in Hg as <-. discriminate Hc. }
  rewrite Hno. auto.
Qed.

(** X12: numeric customer identifiers.  For a non-empty string of digits
    [d], the [get-customer-orders] command reduces the global identifier
    [gid://shopify/Customer/d] to [d], also when something that does not
    start with a digit follows, and leaves a bare [d] as it is; so both
    spellings lead to the very same client call. *)
Theorem customer_gid_reduces_to_digits (d : string) :
  Cli.all_digits d = true ->
  d <> "" ->
  Cli.customer_id_of (Cli.customer_gid +:+ d) = d /\
  (forall rest,
      match rest with
      | EmptyString => True
      | String c _ => Cli.is_digit c = false
      end ->
      Cli.customer_id_of (Cli.customer_gid +:+ d +:+ rest) = d) /\
  Cli.customer_id_of d = d /\
  (forall W (clock : W -> Z) transport JSON_parse limit,
      Cli.get_customer_orders clock transport JSON_parse
        (Cli.customer_gid +:+ d) limit =
      Cli.get_customer_orders clock transport JSON_parse d limit).
Proof.
  intros Hd Hne.
  assert (Htrail : forall rest,
             match rest with
             | EmptyString => True
             | String c _ => Cli.is_digit c = false
             end ->
             Cli.customer_id_of (Cli.customer_gid +:+ d +:+ rest) = d).
  { intros rest Hrest. unfold Cli.customer_id_of.
    change (Cli.customer_gid +:+ d +:+ rest)
      with (String "g" ("id://shopify/Customer/" +:+ d +:+ rest)).
    rewrite match_customer_gid_step.
    change (String "g" ("id://shopify/Customer/" +:+ d +:+ rest))
      with (Cli.customer_gid +:+ (d +:+ rest)).
    rewrite strip_prefix_append, take_digits_then by assumption.
    destruct d; [contradiction|reflexivity]. }
  assert (Hgid : Cli.customer_id_of (Cli.customer_gid +:+ d) = d).
  { specialize (Htrail "" I).
    rewrite append_empty_r in Htrail. exact Htrail. }
  assert (Hbare : Cli.customer_id_of d = d).
  { unfold Cli.customer_id_of.
    rewrite match_customer_gid_of_digits by assumption. reflexivity. }
  repeat split; try assumption.
  intros W clock transport JSON_parse limit.
  unfold Cli.get_customer_orders. rewrite Hgid, Hbare. reflexivity.
Qed.

Lemma customer_gid_reduces_to_digits_witness :
  Cli.customer_id_of "gid://shopify/Customer/6789" = "6789" /\
  Cli.customer_id_of "6789" = "6789".
Proof.
  destruct (customer_gid_reduces_to_digits "6789" eq_refl
              ltac:(discriminate)) as (Hgid & _ & Hbare & _).
  split; [exact Hgid | exact Hbare].
Defined.

(** X13: what the [get-customer-orders] command passes on.  The customer
    identifier handed to the client is either the [--id] argument
    unchanged or a non-empty string of digits; reducing twice is the same
    as reducing once. *)
Theorem customer_id_of_shape (id : string) :
  (Cli.match_customer_gid id = None /\ Cli.customer_id_of id = id \/
   Cli.all_digits (Cli.customer_id_of id) = true /\
   Cli.customer_id_of id <> "") /\
  Cli.customer_id_of (Cli.customer_id_of id) = Cli.customer_id_of id.
Proof.
  unfold Cli.customer_id_of.
  destruct (Cli.match_customer_gid id) as [d|] eqn:Hm; simpl.
  - destruct (match_customer_gid_digits _ _ Hm) as [Hd Hne].
    split; [right; auto|].
    rewrite match_customer_gid_of_digits by assumption. reflexivity.
  - split; [left; auto|]. rewrite Hm. reflexivity.
Qed.

Lemma append_cons c (s t : string) : String c s +:+ t = String c (s +:+ t).
Proof. reflexivity. Qed.

Lemma split_comma_nonempty s :
  exists piece pieces, Cli.split_comma s = piece :: pieces.
Proof.
  destruct s as [|c s]; simpl; [eauto|].
  destruct (Ascii.eqb c ","); [eauto|].
  destruct (Cli.split_comma s); eauto.
Qed.

Lemma join_with_cons sep c piece pieces :
  Cli.join_with sep (String c piece :: pieces) =
  String c (Cli.join_with sep (piece :: pieces)).
Proof. destruct pieces; reflexivity. Qed.

Lemma count_commas_append s t :
  Cli.count_commas (s +:+ t) = (Cli.count_commas s + Cli.count_commas t)%nat.
Proof.
  induction s as [|c s IH]; [reflexivity|].
  rewrite append_cons. simpl. destruct (Ascii.eqb c ","); simpl;
    rewrite IH; reflexivity.
Qed.

Lemma split_comma_count (s : string) :
  length (Cli.split_comma s) = S (Cli.count_commas s) /\
  Forall (fun piece => Cli.count_commas piece = O) (Cli.split_comma s).
Proof.
  induction s as [|c s (Hlen & Hpieces)]; simpl.
  - repeat split. repeat constructor.
  - destruct (split_comma_nonempty s) as (piece & pieces & Hs).
    rewrite Hs in *. destruct (Ascii.eqb c ",") eqn:Hc.
    + split.
      * simpl in Hlen |- *. f_equal. exact Hlen.
      * constructor; [reflexivity | exact Hpieces].
    + split; [exact Hlen|].
      apply Forall_cons in Hpieces as [Hp Hps].
      constructor; [|exact Hps]. simpl. rewrite Hc. exact Hp.
Qed.

(** X14: splitting a tag list.  [split(",")] cuts at every comma: it
    yields one piece more than there are commas (a single empty piece for
    the empty string), no piece contains a comma, and joining the pieces
    with commas gives the string back. *)
Theorem split_comma_pieces (s : string) :
  length (Cli.split_comma s) = S (Cli.count_commas s) /\
  Forall (fun piece => Cli.count_commas piece = O) (Cli.split_comma s) /\
  Cli.join_with "," (Cli.split_comma s) = s.
Proof.
  destruct (split_comma_count s) as [Hlen Hpieces].
  split; [exact Hlen|]. split; [exact Hpieces|]. clear.
  induction s as [|c s Hjoin]; simpl; [reflexivity|].
  destruct (split_comma_nonempty s) as (piece & pieces & Hs).
  rewrite Hs in *. destruct (Ascii.eqb c ",") eqn:Hc.
  - apply Ascii.eqb_eq in Hc as ->.
    change (Cli.join_with "," ("" :: piece :: pieces))
      with ("" +:+ "," +:+ Cli.join_with "," (piece :: pieces)).
    rewrite Hjoin. reflexivity.
  - rewrite join_with_cons, Hjoin. reflexivity.
Qed.

Lemma all_spaces_append s t :
  Cli.all_spaces (s +:+ t) = Cli.all_spaces s && Cli.all_spaces t.
Proof.
  induction s as [|c s IH]; [reflexivity|].
  rewrite append_cons. simpl. rewrite IH, andb_assoc. reflexivity.
Qed.

Lemma trim_start_spec s :
  exists l,
    s = l +:+ Cli.trim_start s /\
    Cli.all_spaces l = true /\
    Cli.starts_with_space (Cli.trim_start s) = false.
Proof.
  induction s as [|c s (l & Hs & Hl & Hstart)]; simpl.
  - exists "". auto.
  - destruct (Cli.is_space c) eqn:Hc.
    + exists (String c l). rewrite append_cons, <- Hs. simpl.
      rewrite Hc, Hl. auto.
    + exists "". simpl. auto.
Qed.

Lemma trim_end_spec s :
  exists r,
    s = Cli.trim_end s +:+ r /\
    Cli.all_spaces r = true /\
    Cli.ends_with_space (Cli.trim_end s) = false.
Proof.
  induction s as [|c s (r & Hs & Hr & Hend)]; simpl.
  - exists "". auto.
  - destruct (Cli.trim_end s) as [|c' s'] eqn:Ht.
    + change (s = r) in Hs. subst r. destruct (Cli.is_space c) eqn:Hc.
      * exists (String c s). simpl. rewrite Hc, Hr. auto.
      * exists s. simpl. rewrite Hc. auto.
    + exists r. rewrite !append_cons. rewrite !append_cons in Hs.
      rewrite <- Hs. auto.
Qed.

Lemma trim_end_keeps_start s :
  Cli.starts_with_space s = false ->
  Cli.starts_with_space (Cli.trim_end s) = false.
Proof.
  destruct s as [|c s]; simpl; [reflexivity|]. intros Hc.
  destruct (Cli.trim_end s); [rewrite Hc|]; simpl; auto.
Qed.

Lemma trim_start_fixed s :
  Cli.starts_with_space s = false -> Cli.trim_start s = s.
Proof. destruct s as [|c s]; simpl; [reflexivity|]. intros ->. reflexivity. Qed.

Lemma trim_end_fixed s :
  Cli.ends_with_space s = false -> Cli.trim_end s = s.
Proof.
  induction s as [|c s IH]; [reflexivity|].
  destruct s as [|c' s'].
  - simpl. intros ->. reflexivity.
  - intros Hend. change (Cli.ends_with_space (String c' s') = false) in Hend.
    specialize (IH Hend). cbn [Cli.trim_end] in *. rewrite IH. reflexivity.
Qed.

Lemma trim_parts s :
  exists l r,
    s = l +:+ Cli.trim s +:+ r /\
    Cli.all_spaces l = true /\
    Cli.all_spaces r = true /\
    Cli.starts_with_space (Cli.trim s) = false /\
    Cli.ends_with_space (Cli.trim s) = false.
Proof.
  unfold Cli.trim.
  destruct (trim_start_spec s) as (l & Hs & Hl & Hstart).
  destruct (trim_end_spec (Cli.trim_start s)) as (r & Ht & Hr & Hend).
  exists l, r. rewrite <- Ht.
  repeat split; try assumption. apply trim_end_keeps_start, Hstart.
Qed.

Lemma trim_empty_iff s : Cli.trim s = "" <-> Cli.all_spaces s = true.
Proof.
  destruct (trim_parts s) as (l & r & Hs & Hl & Hr & Hstart & _). split.
  - intros Hempty. rewrite Hempty in Hs.
    rewrite Hs, !all_spaces_append, Hl, Hr. reflexivity.
  - intros Hall. rewrite Hs, !all_spaces_append in Hall.
    apply andb_true_iff in Hall as [_ [Hall _]%andb_true_iff].
    destruct (Cli.trim s) as [|c t]; [reflexivity|].
    simpl in Hstart, Hall. rewrite Hstart in Hall. discriminate.
Qed.

(** X15: trimming a tag.  [trim] removes a run of white space at the
    front and one at the back and nothing else: what is left neither
    starts nor ends with white space.  Trimming again changes nothing, a
    string without white space at its ends is left as it is, and the
    result is empty exactly when the string was all white space. *)
Theorem trim_removes_outer_space (s : string) :
  (exists l r,
      s = l +:+ Cli.trim s +:+ r /\
      Cli.all_spaces l = true /\
      Cli.all_spaces r = true) /\
  Cli.starts_with_space (Cli.trim s) = false /\
  Cli.ends_with_space (Cli.trim s) = false /\
  Cli.trim (Cli.trim s) = Cli.trim s /\
  (Cli.starts_with_space s = false -> Cli.ends_with_space s = false ->
   Cli.trim s = s) /\
  (Cli.trim s = "" <-> Cli.all_spaces s = true).
Proof.
  destruct (trim_parts s) as (l & r & Hs & Hl & Hr & Hstart & Hend).
  assert (Hfix : forall t,
             Cli.starts_with_space t = false ->
             Cli.ends_with_space t = false ->
             Cli.trim t = t).
  { intros t H1 H2. unfold Cli.trim. rewrite (trim_start_fixed t H1).
    apply trim_end_fixed, H2. }
  split; [eauto|]. split; [exact Hstart|]. split; [exact Hend|].
  split; [apply Hfix; assumption|]. split; [apply Hfix|].
  apply trim_empty_iff.
Qed.

(** X16: the tags the [update-customer] command sends.  Without [--tags]
    the property is [undefined].  Otherwise it is an array with one
    string per comma-separated piece, one more than there are commas:
    blank pieces are kept as empty tags, and [--tags ""] sends one empty
    tag.  No tag starts or ends with white space or contains a comma. *)
Theorem split_tags_shape (tags : string) :
  Cli.split_tags None = VUndefined /\
  Cli.split_tags (Some "") = VArr [VStr ""] /\
  exists pieces,
    Cli.split_tags (Some tags) = VArr (map VStr pieces) /\
    length pieces = S (Cli.count_commas tags) /\
    Forall (fun tag =>
              Cli.starts_with_space tag = false /\
              Cli.ends_with_space tag = false /\
              Cli.count_commas tag = O) pieces /\
    Forall2 (fun piece tag => tag = "" <-> Cli.all_spaces piece = true)
      (Cli.split_comma tags) pieces.
Proof.
  split; [reflexivity|]. split; [reflexivity|].
  exists (map Cli.trim (Cli.split_comma tags)).
  destruct (split_comma_count tags) as (Hlen & Hpieces).
  split; [reflexivity|]. split; [rewrite length_map; exact Hlen|]. split.
  - apply Forall_map. eapply Forall_impl; [exact Hpieces|].
    intros piece Hp. cbn beta.
    destruct (trim_parts piece) as (l & r & Hs & _ & _ & Hstart & Hend).
    repeat split; [assumption..|].
    rewrite Hs, !count_commas_append in Hp. lia.
  - clear. induction (Cli.split_comma tags) as [|piece pieces IH]; simpl;
      [constructor|].
    constructor; [apply trim_empty_iff | exact IH].
Qed.

(** ** Reads, mutations and the cache together *)


Lemma updateOrder_cache {W}
  (transport : string -> list (string * any) -> W -> (exn + ToolResult) * W)
  (JSON_parse : string -> option any)
  orderId updates (s s1 : State W) res :
  updateOrder transport JSON_parse orderId updates s = (Ok res, s1) ->
  cache s1 = (Cache.invalidatePattern "order" (cache s)).2 /\
  cacheDisabled s1 = cacheDisabled s.
Proof.
  intros Hrun.
  pose proof (mutation_contract transport JSON_parse "update-order"
                (JS.assign [("id", VStr orderId)] updates) "order" s) as Hc.
  pose proof (callTool_frame transport JSON_parse "update-order"
                (JS.assign [("id", VStr orderId)] updates) s)
    as (_ & Hoff & _).
  unfold updateOrder in Hrun.
  destruct (callTool transport JSON_parse "update-order" _ s)
    as [[res'|e] s'].
  - destruct Hc as [Hop _]. rewrite Hop in Hrun. injection Hrun as _ <-.
    simpl in *. auto.
  - destruct Hc as [Hop _]. rewrite Hop in Hrun. discriminate Hrun.
Qed.

(** X18: an order update does not reach the cached customer order lists.
    [updateOrder] invalidates the keys beginning with [order];
    [getCustomerOrders] caches under [customer_orders].  So when a
    customer's order list is cached and still fresh, a
    [getCustomerOrders] made after a successful [updateOrder] returns the
    list cached before the update, without calling the tool. *)
Theorem getCustomerOrders_stale_after_updateOrder {W} (clock : W -> Z)
  (transport : string -> list (string * any) -> W -> (exn + ToolResult) * W)
  (JSON_parse : string -> option any)
  (orderId : string) (updates : list (string * any))
  (customerId : string) (limit : any)
  (s s1 : State W) (res : any) (e : CacheEntry) :
  enabled (cache s) = true ->
  cacheDisabled s = false ->
  entries (cache s) !!
    createCacheKey "customer_orders"
      [("id", VStr customerId); ("limit", limit)] = Some e ->
  updateOrder transport JSON_parse orderId updates s = (Ok res, s1) ->
  clock (world s1) < expiresAt e ->
  getCustomerOrders clock transport JSON_parse customerId limit s1 =
  (Ok (value e), with_cache (Cache.count_hit (cache s1)) s1).
Proof.
  intros Hen Hoff He Hrun Hfresh.
  destruct (updateOrder_cache transport JSON_parse _ _ _ _ _ Hrun)
    as [Hcache Hoff1].
  unfold getCustomerOrders. rewrite Hoff1, Hoff.
  apply getOrFetch_hit; [rewrite Hcache; exact Hen | | exact Hfresh].
  rewrite Hcache, invalidatePattern_lookup.
  replace (String.prefix "order"
             (createCacheKey "customer_orders"
                [("id", VStr customerId); ("limit", limit)]))
    with false by reflexivity.
  exact He.
Qed.

Lemma getCustomerOrders_stale_after_updateOrder_witness :
  let c := Cache.with_entries
             {["customer_orders:id=77" := entry (VStr "one order") 0 300]}
             Cache.create in
  let s1 := (updateOrder (replying "[]") sample_parse "42"
               [("note", VStr "paid")] (client_at 100 c false)).2 in
  getCustomerOrders (fun now : Z => now) (replying "[]") sample_parse
    "77" VUndefined s1 =
  (Ok (VStr "one order"), with_cache (Cache.count_hit (cache s1)) s1).
Proof.
  cbv zeta.
  apply (getCustomerOrders_stale_after_updateOrder (fun now : Z => now)
           (replying "[]") sample_parse "42" [("note", VStr "paid")]
           "77" VUndefined
           (client_at 100
              (Cache.with_entries
                 {["customer_orders:id=77" := entry (VStr "one order") 0 300]}
                 Cache.create) false)
           _ (VArr []) (entry (VStr "one order") 0 300));
    reflexivity.
Defined.

(** X19: switching the cache off and on again.  After [disableCache] a
    [getOrders] returns what a call of the [get-orders] tool returns and
    makes that one call; the entries stay as they were, so what was
    fetched meanwhile is not kept.  After [enableCache] an entry that was
    cached before and is still fresh is served again, without a tool
    call and without touching the entries. *)
Theorem disableCache_bypasses_and_keeps_entries {W} (clock : W -> Z)
  (transport : string -> list (string * any) -> W -> (exn + ToolResult) * W)
  (JSON_parse : string -> option any)
  (options : option OrdersOptions) (s : State W) :
  let s1 := (disableCache s).2 in
  let out := getOrders clock transport JSON_parse options s1 in
  let direct :=
    callTool transport JSON_parse "get-orders" (getOrders_args options) s1 in
  let s3 := (enableCache out.2).2 in
  out.1 = direct.1 /\
  world out.2 = world direct.2 /\
  history out.2 =
    history s ++ [ToolCalled "get-orders" (getOrders_args options)] /\
  entries (cache out.2) = entries (cache s) /\
  forall e,
    entries (cache s) !! getOrders_key options = Some e ->
    clock (world s3) < expiresAt e ->
    let again := getOrders clock transport JSON_parse options s3 in
    again.1 = Ok (value e) /\
    world again.2 = world s3 /\
    history again.2 = history s3 /\
    entries (cache again.2) = entries (cache s).
Proof.
  cbv zeta.
  assert (Hout : getOrders clock transport JSON_parse options (disableCache s).2
                 = callTool transport JSON_parse "get-orders"
                     (getOrders_args options) (disableCache s).2)
    by reflexivity.
  pose proof (callTool_frame transport JSON_parse "get-orders"
                (getOrders_args options) (disableCache s).2)
    as (Hc & Hoff & Hh).
  rewrite Hout. cbv zeta in Hc, Hoff, Hh.
  split; [reflexivity|]. split; [reflexivity|].
  split; [exact Hh|]. split; [rewrite Hc; reflexivity|].
  intros e He Hfresh.
  assert (Hhit :
            getOrders clock transport JSON_parse options
              (enableCache
                 (callTool transport JSON_parse "get-orders"
                    (getOrders_args options) (disableCache s).2).2).2 =
            (Ok (value e),
             with_cache
               (Cache.count_hit
                  (cache (enableCache
                            (callTool transport JSON_parse "get-orders"
                               (getOrders_args options)
                               (disableCache s).2).2).2))
               (enableCache
                  (callTool transport JSON_parse "get-orders"
                     (getOrders_args options) (disableCache s).2).2).2)).
  { unfold getOrders.
    apply getOrFetch_hit; [reflexivity | | exact Hfresh].
    cbn [enableCache snd cache Cache.enable entries]. rewrite Hc. exact He. }
  rewrite Hhit. cbn [fst snd with_cache world history cache].
  split; [reflexivity|]. split; [reflexivity|]. split; [reflexivity|].
  cbn [Cache.count_hit entries enableCache snd cache Cache.enable].
  rewrite Hc. reflexivity.
Qed.

Lemma getAllOrders_first_page_hit {W} (clock : W -> Z)
  (transport : string -> list (string * any) -> W -> (exn + ToolResult) * W)
  (JSON_parse : string -> option any)
  (options : option AllOrdersOptions) (s : State W) (e : CacheEntry) :
  enabled (cache s) = true ->
  cacheDisabled s = false ->
  entries (cache s) !!
    getOrders_key (Some (page_request options VUndefined)) = Some e ->
  clock (world s) < expiresAt e ->
  getOrders clock transport JSON_parse
    (Some (page_request options VUndefined)) s =
  (Ok (value e), with_cache (Cache.count_hit (cache s)) s).
Proof.
  intros Hen Hoff He Hfresh. unfold getOrders. rewrite Hoff.
  apply getOrFetch_hit; assumption.
Qed.

(** X20: [getAllOrders] is served from the cache.  Its pages go through
    [getOrders], so when the first page is cached, still fresh, and does
    not lead to a second request (a bare array, a page without a further
    page, or [maxPages] 1), [getAllOrders] returns the cached orders
    without calling the tool: only the hit counter changes. *)
Theorem getAllOrders_served_from_cache {W} (clock : W -> Z)
  (transport : string -> list (string * any) -> W -> (exn + ToolResult) * W)
  (JSON_parse : string -> option any)
  (options : option AllOrdersOptions) (fuel : nat)
  (s : State W) (e : CacheEntry) (st1 : LoopState) :
  enabled (cache s) = true ->
  cacheDisabled s = false ->
  entries (cache s) !!
    getOrders_key (Some (page_request options VUndefined)) = Some e ->
  clock (world s) < expiresAt e ->
  below 0 (maxPages_of options) = true ->
  (0 < fuel)%nat ->
  absorb (value e) loop_init = inr st1 ->
  continues (maxPages_of options) st1 = false ->
  getAllOrders clock transport JSON_parse fuel options s =
  (Ok (Some (finish st1)), with_cache (Cache.count_hit (cache s)) s) /\
  history (with_cache (Cache.count_hit (cache s)) s) = history s.
Proof.
  intros Hen Hoff He Hfresh Hmax Hfuel Ha Hstop.
  destruct fuel as [|fuel]; [lia|]. split; [|reflexivity].
  unfold getAllOrders.
  apply (loop_one_page _ options (value e) st1 s _ fuel Hmax);
    [|assumption..].
  apply getAllOrders_first_page_hit; assumption.
Qed.

Lemma getAllOrders_served_from_cache_witness :
  let c := Cache.with_entries
             {["orders:limit=250&reverse=true&sortKey=CREATED_AT" :=
                 entry (VArr [VStr "#1001"]) 0 300]}
             Cache.create in
  getAllOrders (fun now : Z => now) (rejecting "offline") sample_parse
    10 None (client_at 100 c false) =
  (Ok (Some {| orders := [VStr "#1001"]; totalFetched := 1;
               hasMore := VBool false |}),
   with_cache (Cache.count_hit c) (client_at 100 c false)).
Proof.
  cbv zeta.
  refine (proj1 (getAllOrders_served_from_cache (fun now : Z => now)
                   (rejecting "offline") sample_parse None 10
                   (client_at 100
                      (Cache.with_entries
                         {["orders:limit=250&reverse=true&sortKey=CREATED_AT"
                             := entry (VArr [VStr "#1001"]) 0 300]}
                         Cache.create) false)
                   (entry (VArr [VStr "#1001"]) 0 300)
                   {| allOrders := [VStr "#1001"]; cursor := VUndefined;
                      hasNextPage := VBool false; pageCount := 1 |}
                   eq_refl eq_refl eq_refl eq_refl eq_refl _
                   eq_refl eq_refl)).
  repeat constructor.
Defined.

(** ** How a run ends *)

(** X21: a run returns at the first state in which the loop condition
    fails.  If the loop reaches a state whose [hasNextPage] is falsy or
    whose [pageCount] has reached [maxPages], [getAllOrders] returns the
    orders accumulated in that state and that state's [hasNextPage], and
    ends in the state of the world at that point: nothing more is
    fetched. *)
Theorem getAllOrders_returns_at_first_stop {T}
  (getOrders : OrdersOptions -> M T any)
  (options : option AllOrdersOptions)
  (s0 : T) (st : LoopState) (s : T) (fuel : nat) :
  reaches getOrders options s0 st s ->
  continues (maxPages_of options) st = false ->
  (Z.to_nat (pageCount st) <= fuel)%nat ->
  getAllOrders_with getOrders options fuel s0 =
  (Ok (Some {| orders := allOrders st;
               totalFetched := Z.of_nat (length (allOrders st));
               hasMore := hasNextPage st |}), s).
Proof.
  intros Hreach Hstop Hfuel.
  replace fuel
    with (Z.to_nat (pageCount st) + (fuel - Z.to_nat (pageCount st)))%nat
    by lia.
  rewrite getAllOrders_with_loop, (loop_follows _ _ _ _ _ Hreach).
  rewrite loop_stop by assumption.
  reflexivity.
Qed.

Lemma getAllOrders_returns_at_first_stop_witness :
  getAllOrders_with two_pages (with_maxPages 1) 1 0%nat =
  (Ok (Some {| orders := [VStr "#1001"; VStr "#1002"];
               totalFetched := 2; hasMore := VBool true |}), 1%nat).
Proof.
  apply (getAllOrders_returns_at_first_stop two_pages (with_maxPages 1)
           0%nat
           {| allOrders := [VStr "#1001"; VStr "#1002"];
              cursor := VStr "c1"; hasNextPage := VBool true;
              pageCount := 1 |} 1%nat 1).
  - eapply (reaches_next two_pages (with_maxPages 1) 0%nat loop_init 0%nat);
      [apply reaches_init | reflexivity | reflexivity | reflexivity].
  - reflexivity.
  - vm_compute. repeat constructor.
Defined.

(** X22: a response the loop cannot take in, on whatever page it arrives,
    ends the whole call.  If a page fetched from a state the loop passes
    through is [null], or has a truthy [orders] property that cannot be
    spread, [getAllOrders] throws the [TypeError] and the orders of the
    earlier pages are not returned. *)
Theorem getAllOrders_malformed_page_discards {T}
  (getOrders : OrdersOptions -> M T any)
  (options : option AllOrdersOptions)
  (s0 : T) (st : LoopState) (s s' : T) (res : any) (e : exn) (fuel : nat) :
  reaches getOrders options s0 st s ->
  continues (maxPages_of options) st = true ->
  getOrders (page_request options (cursor st)) s = (Ok res, s') ->
  absorb res st = inl e ->
  (Z.to_nat (pageCount st) < fuel)%nat ->
  getAllOrders_with getOrders options fuel s0 = (Throw e, s') /\
  (exists message, e = TypeError message) /\
  (res = VNull ->
   e = TypeError "Cannot read properties of null (reading 'orders')").
Proof.
  intros Hreach Hc Hf Ha Hfuel. split; [|split].
  - replace fuel
      with (Z.to_nat (pageCount st) +
            S (fuel - S (Z.to_nat (pageCount st))))%nat by lia.
    rewrite getAllOrders_with_loop, (loop_follows _ _ _ _ _ Hreach).
    rewrite loop_unfold by assumption.
    rewrite Hf, Ha. reflexivity.
  - unfold absorb in Ha.
    destruct res; simpl in Ha; try discriminate Ha;
      try (injection Ha as <-; eexists; reflexivity).
    destruct (default VUndefined (JS.lookup_field "orders" fields));
      simpl in Ha;
      repeat match type of Ha with
             | context [if ?b then _ else _] => destruct b
             end;
      try discriminate Ha; injection Ha as <-; eexists; reflexivity.
  - intros ->. simpl in Ha. injection Ha as <-. reflexivity.
Qed.

Lemma getAllOrders_malformed_page_discards_witness :
  getAllOrders_with
    (fun _ n =>
       match n with
       | O => (Ok (page [VStr "#1001"] true (VStr "c1")), 1%nat)
       | _ => (Ok VNull, S n)
       end) (with_maxPages 4) 4 0%nat =
  (Throw (TypeError "Cannot read properties of null (reading 'orders')"),
   2%nat).
Proof.
  refine (proj1 (getAllOrders_malformed_page_discards
                   (fun _ n =>
                      match n with
                      | O => (Ok (page [VStr "#1001"] true (VStr "c1")), 1%nat)
                      | _ => (Ok VNull, S n)
                      end) (with_maxPages 4) 0%nat
                   {| allOrders := [VStr "#1001"]; cursor := VStr "c1";
                      hasNextPage := VBool true; pageCount := 1 |}
                   1%nat 2%nat VNull _ 4 _ eq_refl eq_refl eq_refl _)).
  - eapply (reaches_next _ (with_maxPages 4) 0%nat loop_init 0%nat);
      [apply reaches_init | reflexivity | reflexivity | reflexivity].
  - vm_compute. repeat constructor.
Defined.
